(** * PocketFlow tutorial generator: the LLM call gateway and the run configuration

    A shallow embedding of [utils/call_llm.py] (the caching, logging gateway
    in front of the chat-completion backend) and of [main.py] (the
    configuration loader that builds the initial shared dictionary), with the
    properties the design document states about them.

    Python strings are modelled as [string], one character per Python
    character; Python integers as [Z] (unbounded) or [nat] where the value is
    a length; [dict] objects keyed by strings as [gmap string _]; [set]
    objects of strings as [gset string]. *)

From stdpp Require Import base strings gmap list.
From Stdlib Require Import ZArith Lia.

Open Scope string_scope.
Open Scope list_scope.
Open Scope nat_scope.

(** ** The call gateway ([utils/call_llm.py]) *)

Module Gateway.

(** *** The world the gateway runs in *)

(** An exception object, identified by its detail text. *)
Record exn := Exn { detail : string }.

(** A JSON value that is not an object, as far as the gateway can tell one
    from another: an array is given by its elements, [Some s] for the string
    [s] and [None] for an element that is not a string. *)
Inductive NonObject :=
| JNull
| JBool (b : bool)
| JNumber (literal : string)
| JString (s : string)
| JArray (items : list (option string)).

(** The file [llm_cache.json] as [os.path.exists], [open] and [json.load]
    see it: not there; there but raising [e] when opened and parsed;
    holding a JSON object from prompts to responses (the storage format,
    and what every [json.dump] of the gateway writes); or holding some
    other JSON value, which [json.load] returns without complaint. *)
Inductive CacheFile :=
| Missing
| Unreadable (e : exn)
| Stored (m : gmap string string)
| OtherJson (v : NonObject).

(** The value of the variable [cache]: a dict, or whatever else
    [json.load] returned. *)
Inductive Cache :=
| Dict (m : gmap string string)
| NotDict (v : NonObject).

Definition TypeError : exn := Exn "TypeError".
Definition KeyError : exn := Exn "KeyError".

(** One message of a chat request, [{"role": ..., "content": ...}]. *)
Record Message := { role : string; content : string }.

(** What [client.chat.completions.create] is called with, together with the
    key the client was built with. *)
Record Request := {
  api_key : string;
  model : string;
  messages : list Message
}.

(** What the backend does with a request: lines 70-77 either evaluate to
    [response.choices[0].message.content] or raise. *)
Inductive Reply :=
| Respond (text : string)
| Fail (e : exn).

(** What [open(cache_file, "w")] followed by [json.dump] does: the map is
    written; or [open] raises [e] and the file is untouched; or the file is
    truncated by [open] and the dump raises [e] part-way, leaving a prefix
    of the JSON text on which a later [json.load] raises [e_load]. *)
Inductive SaveOutcome :=
| Saved
| OpenFailed (e : exn)
| DumpFailed (e : exn) (e_load : exn).

(** The environment: process environment variables, the backend's reply to
    its [n]-th request, what other writers did to the cache file while that
    request was in flight, and the outcome of the [n]-th save. *)
Record Env := {
  getenv : string → option string;
  llm : nat → Request → Reply;
  meanwhile : nat → CacheFile → CacheFile;
  disk : nat → SaveOutcome
}.

(** Records appended to the day's log file by [logger.info] and
    [logger.error]; the constructor is the message template, its arguments
    the interpolated values. *)
Inductive LogRecord :=
| InfoPrompt (prompt : string)
| InfoTokenCount (n : nat)
| InfoResponse (text : string)
| ErrorLoadCache (e : exn)
| ErrorSaveCache (e : exn).

Definition is_load_error (r : LogRecord) : bool :=
  match r with ErrorLoadCache _ => true | _ => false end.

Definition is_error (r : LogRecord) : bool :=
  match r with
  | ErrorLoadCache _ | ErrorSaveCache _ => true
  | _ => false
  end.

(** The gateway's operations on the outside world, in program order. *)
Inductive IOEvent :=
| EvExists
| EvRead
| EvWrite (m : gmap string string)
| EvRequest (req : Request).

Definition is_request (ev : IOEvent) : bool :=
  match ev with EvRequest _ => true | _ => false end.

Definition is_write (ev : IOEvent) : bool :=
  match ev with EvWrite _ => true | _ => false end.

Definition touches_cache_file (ev : IOEvent) : bool :=
  match ev with EvRequest _ => false | _ => true end.

Record World := {
  cache_file : CacheFile;
  log : list LogRecord;
  trace : list IOEvent
}.

Definition requests (w : World) : list IOEvent := filter is_request (trace w).
Definition writes (w : World) : list IOEvent := filter is_write (trace w).

Definition emit (ev : IOEvent) (w : World) : World :=
  {| cache_file := cache_file w; log := log w; trace := trace w ++ [ev] |}.

Definition append_log (r : LogRecord) (w : World) : World :=
  {| cache_file := cache_file w; log := log w ++ [r]; trace := trace w |}.

Definition set_cache_file (f : CacheFile) (w : World) : World :=
  {| cache_file := f; log := log w; trace := trace w |}.

(** *** Computations: world passing with exceptions *)

Inductive Result (A : Type) :=
| Ok (a : A)
| Raised (e : exn).
Arguments Ok {A} a.
Arguments Raised {A} e.

Definition IO (A : Type) : Type := World → Result A * World.

Definition io_ret {A} (a : A) : IO A := λ w, (Ok a, w).

Definition io_bind {A B} (c : IO A) (f : A → IO B) : IO B :=
  λ w, match c w with
       | (Ok a, w') => f a w'
       | (Raised e, w') => (Raised e, w')
       end.

Definition raise {A} (e : exn) : IO A := λ w, (Raised e, w).

(** [try: body except Exception as e: handler e] *)
Definition try_except {A} (body : IO A) (handler : exn → IO A) : IO A :=
  λ w, match body w with
       | (Ok a, w') => (Ok a, w')
       | (Raised e, w') => handler e w'
       end.

Notation "'let*' x ':=' c 'in' k" := (io_bind c (λ x, k))
  (at level 10, x name, c at level 100, k at level 200).
Notation "c >> k" := (io_bind c (λ _, k))
  (at level 100, k at level 200, right associativity).

(** *** Primitive operations *)

Section WithEnv.
Context (env : Env).

(** [logger.info(...)] and [logger.error(...)] *)
Definition logger (r : LogRecord) : IO unit :=
  λ w, (Ok tt, append_log r w).

(** [os.path.exists(cache_file)] *)
Definition path_exists : IO bool :=
  λ w, (Ok (match cache_file w with Missing => false | _ => true end),
        emit EvExists w).

(** [with open(cache_file, "r") as f: json.load(f)] *)
Definition json_load : IO Cache :=
  λ w, let w' := emit EvRead w in
       match cache_file w with
       | Stored m => (Ok (Dict m), w')
       | OtherJson v => (Ok (NotDict v), w')
       | Unreadable e => (Raised e, w')
       | Missing => (Raised (Exn "FileNotFoundError"), w')
       end.

(** [needle in hay] on two strings: [needle] occurs somewhere in [hay]. *)
Fixpoint is_substring (needle hay : string) : bool :=
  String.prefix needle hay ||
  match hay with
  | EmptyString => false
  | String _ rest => is_substring needle rest
  end.

(** [prompt in cache]: a key of a dict, a substring of a string, an element
    of a list; [TypeError] on a value that is not a container. *)
Definition py_in (prompt : string) (cache : Cache) : IO bool :=
  match cache with
  | Dict m => io_ret (bool_decide (is_Some (m !! prompt)))
  | NotDict (JString s) => io_ret (is_substring prompt s)
  | NotDict (JArray items) => io_ret (bool_decide (Some prompt ∈ items))
  | NotDict _ => raise TypeError
  end.

(** [cache[prompt]]: only a dict can be indexed by a string. *)
Definition py_getitem (cache : Cache) (prompt : string) : IO string :=
  match cache with
  | Dict m =>
      match m !! prompt with
      | Some r => io_ret r
      | None => raise KeyError
      end
  | NotDict _ => raise TypeError
  end.

(** [cache[prompt] = value]: the dict with the entry set; [TypeError] on
    anything else. *)
Definition py_setitem (cache : Cache) (prompt value : string) : IO (gmap string string) :=
  match cache with
  | Dict m => io_ret (<[prompt := value]> m)
  | NotDict _ => raise TypeError
  end.

(** [with open(cache_file, "w") as f: json.dump(cache, f)] *)
Definition json_dump (cache : gmap string string) : IO unit :=
  λ w, let w' := emit (EvWrite cache) w in
       match disk env (length (writes w)) with
       | Saved => (Ok tt, set_cache_file (Stored cache) w')
       | OpenFailed e => (Raised e, w')
       | DumpFailed e e_load => (Raised e, set_cache_file (Unreadable e_load) w')
       end.

(** [os.getenv(name, default)] *)
Definition os_getenv (name default : string) : string :=
  match getenv env name with Some v => v | None => default end.

(** Lines 70-77: build the client and the request, send it, and take the
    text of the first choice. While the request is in flight other
    processes may rewrite the cache file. *)
Definition request_for (prompt : string) : Request :=
  {| api_key := os_getenv "OPENAI_API_KEY" "";
     model := os_getenv "OPENAI_MODEL" "gpt-4.1-mini";
     messages := [ {| role := "user"; content := prompt |} ] |}.

Definition chat_completions_create (prompt : string) : IO string :=
  λ w, let req := request_for prompt in
       let n := length (requests w) in
       let w' := set_cache_file (meanwhile env n (cache_file w))
                                (emit (EvRequest req) w) in
       match llm env n req with
       | Respond text => (Ok text, w')
       | Fail e => (Raised e, w')
       end.

(** *** [estimate_tokens] and [call_llm] *)

(** [len(text) // 4] *)
Definition estimate_tokens (text : string) : nat :=
  String.length text / 4.

(** Lines 56-62, and again verbatim at lines 85-91: start from an empty
    dict, and replace it by the file's contents when the file exists and
    loads. *)
Definition load_cache : IO Cache :=
  let* found := path_exists in
  if found then
    try_except json_load
               (λ e, logger (ErrorLoadCache e) >> io_ret (Dict ∅))
  else io_ret (Dict ∅).

(** The cache check of lines 54-67: [Some r] stands for [return cache[prompt]],
    [None] for falling through to the backend call. *)
Definition check_cache (prompt : string) (use_cache : bool) : IO (option string) :=
  if use_cache then
    let* cache := load_cache in
    let* found := py_in prompt cache in
    if found then
      let* r := py_getitem cache prompt in
      logger (InfoResponse r) >> io_ret (Some r)
    else io_ret None
  else io_ret None.

(** The cache update of lines 83-99. *)
Definition update_cache (prompt response_text : string) (use_cache : bool) : IO unit :=
  if use_cache then
    let* cache := load_cache in
    let* cache := py_setitem cache prompt response_text in
    try_except (json_dump cache)
               (λ e, logger (ErrorSaveCache e))
  else io_ret tt.

Definition call_llm (prompt : string) (use_cache : bool) : IO string :=
  logger (InfoPrompt prompt) >>
  let token_estimate := estimate_tokens prompt in
  logger (InfoTokenCount token_estimate) >>
  let* hit := check_cache prompt use_cache in
  match hit with
  | Some r => io_ret r
  | None =>
      let* response_text := chat_completions_create prompt in
      logger (InfoResponse response_text) >>
      update_cache prompt response_text use_cache >>
      io_ret response_text
  end.

End WithEnv.

(** *** Vocabulary for the statements *)

(** The mapping a load of the cache file yields, empty when it yields none. *)
Definition loaded (f : CacheFile) : gmap string string :=
  match f with Stored m => m | _ => ∅ end.

(** The value a load of the cache file leaves in [cache]. *)
Definition cached (f : CacheFile) : Cache :=
  match f with
  | Stored m => Dict m
  | OtherJson v => NotDict v
  | _ => Dict ∅
  end.

(** The check of lines 65-66 raises [TypeError]: the file holds a value
    that is not a container, or a string or list in which the prompt is
    found and which cannot be indexed by it. *)
Definition check_raises (f : CacheFile) (prompt : string) : bool :=
  match f with
  | OtherJson (JString s) => is_substring prompt s
  | OtherJson (JArray items) => bool_decide (Some prompt ∈ items)
  | OtherJson _ => true
  | _ => false
  end.

(** The insertion of line 94 raises [TypeError]: the file holds a JSON
    value that is not an object. *)
Definition insert_raises (f : CacheFile) : bool :=
  match f with OtherJson _ => true | _ => false end.

(** The log records and the file operations of one load. *)
Definition load_errors (f : CacheFile) : list LogRecord :=
  match f with Unreadable e => [ErrorLoadCache e] | _ => [] end.

Definition load_events (f : CacheFile) : list IOEvent :=
  match f with Missing => [EvExists] | _ => [EvExists; EvRead] end.

(** What a run from [w] to [w'] added to the log and to the trace. *)
Definition logged (w w' : World) : list LogRecord :=
  drop (length (log w)) (log w').

Definition performed (w w' : World) : list IOEvent :=
  drop (length (trace w)) (trace w').

(** The number of backend calls of a run from [w] to [w']. *)
Definition backend_calls (w w' : World) : nat :=
  length (filter is_request (performed w w')).

(** The file, and the error records, an attempt to save [m] over [f]
    leaves behind. *)
Definition after_save (f : CacheFile) (o : SaveOutcome) (m : gmap string string) : CacheFile :=
  match o with
  | Saved => Stored m
  | OpenFailed _ => f
  | DumpFailed _ e_load => Unreadable e_load
  end.

Definition save_errors (o : SaveOutcome) : list LogRecord :=
  match o with
  | Saved => []
  | OpenFailed e | DumpFailed e _ => [ErrorSaveCache e]
  end.

(** The outcome of the backend call as the caller of the gateway sees it. *)
Definition outcome (r : Reply) : Result string :=
  match r with Respond text => Ok text | Fail e => Raised e end.

(** The cache file is missing, or there but failing to open or parse. *)
Definition load_fails (f : CacheFile) : bool :=
  match f with Stored _ | OtherJson _ => false | _ => true end.

(** Test fixtures: an empty world, and environments built from a backend
    script and a disk behaviour with no concurrent writers. *)
Definition fresh (f : CacheFile) : World :=
  {| cache_file := f; log := []; trace := [] |}.

Definition quiet_env (replies : nat → Reply) (saves : nat → SaveOutcome) : Env :=
  {| getenv := λ _, None;
     llm := λ n _, replies n;
     meanwhile := λ _ f, f;
     disk := saves |}.

(** *** The rest of the module: the log file, and the self-test *)

Definition is_response (r : LogRecord) : bool :=
  match r with InfoResponse _ => true | _ => false end.

(** [n] invocations in a row with the same arguments, as a stage that asks
    the same question again does; the responses are collected in order and
    the first exception ends the sequence. *)
Fixpoint call_llm_times (env : Env) (prompt : string) (use_cache : bool) (n : nat)
    : IO (list string) :=
  match n with
  | 0 => io_ret []
  | S n' =>
      let* r := call_llm env prompt use_cache in
      let* rs := call_llm_times env prompt use_cache n' in
      io_ret (r :: rs)
  end.

(** Lines of the self-test printed on standard output. *)
Inductive Printed :=
| PrintMakingCall
| PrintResponse (text : string).

(** Lines 253-259, the [__main__] block: announce the call, make it with
    caching disabled, print the response. An exception of the call ends the
    program before the second [print]. *)
Definition test_prompt : string := "Hello, how are you?".

Definition self_test (env : Env) (w : World) : list Printed * (Result unit * World) :=
  match call_llm env test_prompt false w with
  | (Ok response1, w') => ([PrintMakingCall; PrintResponse response1], (Ok tt, w'))
  | (Raised e, w') => ([PrintMakingCall], (Raised e, w'))
  end.

(** A calendar date as [datetime.now()] carries it. *)
Record Date := { year : nat; month : nat; day : nat }.

(** The dates whose [%Y], [%m] and [%d] fields are four, two and two
    digits. *)
Definition four_digit_date (d : Date) : Prop :=
  1000 ≤ year d < 10 * 1000 ∧ 1 ≤ month d ≤ 12 ∧ 1 ≤ day d ≤ 31.

Definition digit (n : nat) : string :=
  match n with
  | 0 => "0" | 1 => "1" | 2 => "2" | 3 => "3" | 4 => "4"
  | 5 => "5" | 6 => "6" | 7 => "7" | 8 => "8" | _ => "9"
  end.

(** A number as [k] decimal digits, zero padded. *)
Fixpoint digits (k n : nat) : string :=
  match k with
  | 0 => EmptyString
  | S k' => digits k' (n / 10) +:+ digit (n mod 10)
  end.

(** [datetime.strftime('%Y%m%d')] *)
Definition strftime_Ymd (d : Date) : string :=
  digits 4 (year d) +:+ digits 2 (month d) +:+ digits 2 (day d).

(** [os.path.join(a, b)] on POSIX: an absolute [b] replaces [a]; otherwise
    [b] is appended, after a separator unless [a] is empty or ends with
    one. *)
Fixpoint ends_with_sep (a : string) : bool :=
  match a with
  | EmptyString => false
  | String c EmptyString => bool_decide (String c EmptyString = "/")
  | String _ rest => ends_with_sep rest
  end.

Definition starts_with_sep (b : string) : bool :=
  match b with
  | String c _ => bool_decide (String c EmptyString = "/")
  | EmptyString => false
  end.

Definition os_path_join (a b : string) : string :=
  if starts_with_sep b then b
  else if bool_decide (a = EmptyString) || ends_with_sep a then a +:+ b
  else a +:+ "/" +:+ b.

(** Lines 8-12: the file the logger appends to. *)
Definition log_directory (env : Env) : string := os_getenv env "LOG_DIR" "logs".

Definition log_file (env : Env) (now : Date) : string :=
  os_path_join (log_directory env)
               ("llm_calls_" +:+ strftime_Ymd now +:+ ".log").

(** *** The properties the design document states over all worlds *)



(** The property as the design document words it: for every prompt, in
    every world, two cache-enabled invocations make exactly one backend
    call between them and return the same text. *)
Definition cache_correctness_as_stated : Prop :=
  ∀ (env : Env) (w : World) (prompt : string),
    let '(res1, w1) := call_llm env prompt true w in
    let '(res2, w2) := call_llm env prompt true w1 in
    backend_calls w w2 = 1 ∧ ∃ r, res1 = Ok r ∧ res2 = Ok r.

(** The property as the design document words it: whenever the cache file
    is missing or fails to load, the call returns the backend's outcome and
    a load error is logged. *)
Definition cache_resilience_as_stated : Prop :=
  ∀ (env : Env) (w : World) (prompt : string),
    load_fails (cache_file w) = true →
    let '(res, w') := call_llm env prompt true w in
    res = outcome (llm env (length (requests w)) (request_for env prompt)) ∧
    ∃ e, ErrorLoadCache e ∈ logged w w'.

End Gateway.

(** ** The configuration loader ([main.py]) *)

Module Main.

(** *** Default file patterns (lines 11-34) *)

Definition DEFAULT_INCLUDE_PATTERNS : gset string :=
  list_to_set [
    "*.py"; "*.js"; "*.jsx"; "*.ts"; "*.tsx"; "*.go"; "*.java"; "*.pyi"; "*.pyx";
    "*.c"; "*.cc"; "*.cpp"; "*.h"; "*.md"; "*.rst"; "Dockerfile";
    "Makefile"; "*.yaml"; "*.yml"
  ].

Definition TEXT_ONLY_INCLUDE_PATTERNS : gset string :=
  list_to_set [
    "*.md"; "*.txt"; "*.rst"; "*.markdown"; "README*"; "documentation/*"; "docs/*"; "*.html"; "*.mdx"
  ].

Definition DEFAULT_EXCLUDE_PATTERNS : gset string :=
  list_to_set [
    "assets/*"; "data/*"; "examples/*"; "images/*"; "public/*"; "static/*"; "temp/*";
    "docs/*";
    "venv/*"; ".venv/*"; "*test*"; "tests/*"; "docs/*"; "examples/*"; "v1/*";
    "dist/*"; "build/*"; "experimental/*"; "deprecated/*"; "misc/*";
    "legacy/*"; ".git/*"; ".github/*"; ".next/*"; ".vscode/*"; "obj/*"; "bin/*"; "node_modules/*"; "*.log"
  ].

Definition TEXT_ONLY_EXCLUDE_PATTERNS : gset string :=
  list_to_set [
    "venv/*"; ".venv/*"; "node_modules/*"; ".git/*"; ".github/*"; ".next/*"; ".vscode/*";
    "dist/*"; "build/*"; "obj/*"; "bin/*"; "*.log"
  ].

(** *** The shared dictionary (lines 37-56) *)

(** Values of type [Any]: what the stages will put in the lists and in the
    dictionary. *)
Inductive Any :=
| PyNone
| PyBool (b : bool)
| PyInt (z : Z)
| PyStr (s : string)
| PyTuple (a b : Any).

Record SharedDict := {
  repo_url : option string;
  local_dir : option string;
  project_name : option string;
  github_token : option string;
  output_dir : string;
  include_patterns : gset string;
  exclude_patterns : gset string;
  max_file_size : Z;
  language : string;
  use_cache : bool;
  max_abstraction_num : Z;
  text_only : bool;
  max_tokens : Z;
  files : list Any;
  abstractions : list Any;
  relationships : list (Any * Any);
  chapter_order : list Any;
  chapters : list Any;
  final_output_dir : option string
}.

(** *** The command line (lines 60-84)

    [argparse] belongs to the Python standard library. Its work is modelled
    from the point where the command line has been split into occurrences of
    the declared options, each with its converted value: the actions are
    taken from left to right, a [store] action overwriting its destination;
    an action of a mutually exclusive group is refused once another action
    of the group has been taken; [-h] prints the help and exits with status
    0; at the end a required group needs one of its actions taken;
    [parser.error] exits with status 2. *)

(** The actions of the parser, by destination. *)
Inductive Dest :=
| d_help | d_repo | d_dir | d_name | d_token | d_output | d_include | d_exclude
| d_max_size | d_language | d_no_cache | d_max_abstractions | d_text_only
| d_max_tokens.

#[global] Instance Dest_eq_dec : EqDecision Dest.
Proof. solve_decision. Defined.

(** One occurrence of an option on the command line. [-i] and [-e] are
    declared with [nargs="+"] and carry at least one pattern. *)
Inductive Arg :=
| Help
| Repo (url : string)
| Dir (path : string)
| Name (s : string)
| Token (s : string)
| Output (s : string)
| Include (p : string) (ps : list string)
| Exclude (p : string) (ps : list string)
| MaxSize (n : Z)
| Language (s : string)
| NoCache
| MaxAbstractions (n : Z)
| TextOnly
| MaxTokens (n : Z).

Definition dest (a : Arg) : Dest :=
  match a with
  | Help => d_help
  | Repo _ => d_repo
  | Dir _ => d_dir
  | Name _ => d_name
  | Token _ => d_token
  | Output _ => d_output
  | Include _ _ => d_include
  | Exclude _ _ => d_exclude
  | MaxSize _ => d_max_size
  | Language _ => d_language
  | NoCache => d_no_cache
  | MaxAbstractions _ => d_max_abstractions
  | TextOnly => d_text_only
  | MaxTokens _ => d_max_tokens
  end.

(** The result of [parse_args]: the attributes [args.repo], [args.dir], ... *)
Record Namespace := {
  repo : option string;
  dir : option string;
  name : option string;
  token : option string;
  output : string;
  include : option (list string);
  exclude : option (list string);
  max_size : Z;
  language_ : string;
  no_cache : bool;
  max_abstractions : Z;
  text_only_ : bool;
  max_tokens_ : Z
}.

(** The declared defaults: [None] where no [default=] is given, [False] for
    the [store_true] flags. *)
Definition defaults : Namespace :=
  {| repo := None; dir := None; name := None; token := None;
     output := "output";
     include := None; exclude := None;
     max_size := 100000;
     language_ := "english";
     no_cache := false;
     max_abstractions := 10;
     text_only_ := false;
     max_tokens_ := 30000 |}.

(** [parser.exit] and [parser.error] end the process. *)
Inductive Exit :=
| SystemExit (status : Z) (message : string).

(** The process ends before the flow is built, or the flow is run on the
    shared dictionary. *)
Inductive Outcome :=
| Exited (e : Exit)
| RunFlow (shared : SharedDict).

(** The [store] and [store_true] actions: the occurrence [a] sets its own
    destination and leaves the other attributes as they are. *)
Definition store (a : Arg) (ns : Namespace) : Namespace :=
  {| repo := match a with Repo url => Some url | _ => repo ns end;
     dir := match a with Dir path => Some path | _ => dir ns end;
     name := match a with Name s => Some s | _ => name ns end;
     token := match a with Token s => Some s | _ => token ns end;
     output := match a with Output s => s | _ => output ns end;
     include := match a with Include p ps => Some (p :: ps) | _ => include ns end;
     exclude := match a with Exclude p ps => Some (p :: ps) | _ => exclude ns end;
     max_size := match a with MaxSize n => n | _ => max_size ns end;
     language_ := match a with Language s => s | _ => language_ ns end;
     no_cache := match a with NoCache => true | _ => no_cache ns end;
     max_abstractions := match a with MaxAbstractions n => n | _ => max_abstractions ns end;
     text_only_ := match a with TextOnly => true | _ => text_only_ ns end;
     max_tokens_ := match a with MaxTokens n => n | _ => max_tokens_ ns end |}.

(** The actions that may not be combined with the action [d]: the two
    members of [source_group] exclude each other. *)
Definition action_conflicts (d : Dest) : list Dest :=
  match d with
  | d_repo => [d_dir]
  | d_dir => [d_repo]
  | _ => []
  end.

Definition seen_any (ds seen : list Dest) : bool :=
  bool_decide (Exists (λ d, d ∈ seen) ds).

(** The parser's state: the namespace being filled and the actions taken so
    far ([seen_non_default_actions]). *)
Record ParserState := {
  namespace : Namespace;
  seen : list Dest
}.

(** Taking one action: [-h] exits, a conflicting action is an error, any
    other action is recorded and stores its value. *)
Definition take_action (a : Arg) (st : ParserState) : Exit + ParserState :=
  match a with
  | Help => inl (SystemExit 0 "help")
  | _ =>
      if seen_any (action_conflicts (dest a)) (seen st)
      then inl (SystemExit 2 "not allowed with argument")
      else inr {| namespace := store a (namespace st);
                  seen := dest a :: seen st |}
  end.

Fixpoint consume (argv : list Arg) (st : ParserState) : Exit + ParserState :=
  match argv with
  | [] => inr st
  | a :: rest =>
      match take_action a st with
      | inl exit => inl exit
      | inr st' => consume rest st'
      end
  end.

(** [parser.parse_args()], with [source_group] required. *)
Definition parse_args (argv : list Arg) : Exit + Namespace :=
  match consume argv {| namespace := defaults; seen := [] |} with
  | inl exit => inl exit
  | inr st =>
      if seen_any [d_repo; d_dir] (seen st)
      then inr (namespace st)
      else inl (SystemExit 2 "one of the arguments --repo --dir is required")
  end.

(** *** [main] (lines 86-144) *)

(** Truth value of an [Optional[str]]: [None] and the empty string are
    false. *)
Definition truthy (o : option string) : bool :=
  match o with
  | None | Some "" => false
  | Some _ => true
  end.

(** What [main] does besides building the dictionary: lookups in
    [os.environ] and lines printed, the constructor being the template and
    its arguments the interpolated values. *)
Inductive Effect :=
| EnvironGet (key : string)
| PrintNoTokenWarning
| PrintStarting (source : option string) (language : string)
| PrintCaching (disabled : bool)
| PrintMode (text_only : bool)
| PrintMaxTokens (n : Z).

Definition is_environ_get (e : Effect) : bool :=
  match e with EnvironGet _ => true | _ => false end.

Section WithEnviron.
Context (environ : string → option string).

(** Lines 87-91: the token, and the effects of finding it. *)
Definition find_github_token (args : Namespace) : option string * list Effect :=
  if truthy (repo args) then
    let '(github_token, reads) :=
      if truthy (token args) then (token args, [])
      else (environ "GITHUB_TOKEN", [EnvironGet "GITHUB_TOKEN"]) in
    if truthy github_token then (github_token, reads)
    else (github_token, reads ++ [PrintNoTokenWarning])
  else (None, []).

(** Lines 94-132: the patterns and the dictionary. *)
Definition build_shared (args : Namespace) (github_token : option string) : SharedDict :=
  let include_patterns :=
    match include args with
    | Some l => list_to_set l
    | None => if text_only_ args then TEXT_ONLY_INCLUDE_PATTERNS
              else DEFAULT_INCLUDE_PATTERNS
    end in
  let exclude_patterns :=
    match exclude args with
    | Some l => list_to_set l
    | None => if text_only_ args then TEXT_ONLY_EXCLUDE_PATTERNS
              else DEFAULT_EXCLUDE_PATTERNS
    end in
  {| repo_url := repo args;
     local_dir := dir args;
     project_name := name args;
     github_token := github_token;
     output_dir := output args;
     include_patterns := include_patterns;
     exclude_patterns := exclude_patterns;
     max_file_size := max_size args;
     language := language_ args;
     use_cache := negb (no_cache args);
     max_abstraction_num := max_abstractions args;
     text_only := text_only_ args;
     max_tokens := max_tokens_ args;
     files := [];
     abstractions := [];
     relationships := [];
     chapter_order := [];
     chapters := [];
     final_output_dir := None |}.

Definition main (argv : list Arg) : Outcome * list Effect :=
  match parse_args argv with
  | inl exit => (Exited exit, [])
  | inr args =>
      let '(github_token, effects) := find_github_token args in
      let shared := build_shared args github_token in
      (RunFlow shared,
       effects ++
       [PrintStarting (if truthy (repo args) then repo args else dir args)
                      (language_ args);
        PrintCaching (no_cache args);
        PrintMode (text_only_ args);
        PrintMaxTokens (max_tokens_ args)])
  end.

End WithEnviron.

(** *** Vocabulary for the statements *)

(** No occurrence of the option with destination [d] on the command line. *)
Definition omitted (d : Dest) (argv : list Arg) : bool :=
  forallb (λ a, negb (bool_decide (dest a = d))) argv.

Definition given (d : Dest) (argv : list Arg) : bool := negb (omitted d argv).

(** What [-i] and [-e] can leave in the namespace: nothing, or a list of at
    least one pattern. *)
Definition patterns_given (o : option (list string)) : Prop :=
  o = None ∨ ∃ p ps, o = Some (p :: ps).

Definition is_token_warning (e : Effect) : bool :=
  match e with PrintNoTokenWarning => true | _ => false end.

(** Test fixture: an environment in which only [GITHUB_TOKEN] is set. *)
Definition environ_with_token (key : string) : option string :=
  if bool_decide (key = "GITHUB_TOKEN") then Some "from-env" else None.

(** The attribute of the namespace an action writes to. *)
Inductive Attr :=
| AttrNone
| AttrOptStr (o : option string)
| AttrStr (s : string)
| AttrPatterns (o : option (list string))
| AttrInt (z : Z)
| AttrBool (b : bool).

Definition getattr (ns : Namespace) (d : Dest) : Attr :=
  match d with
  | d_help => AttrNone
  | d_repo => AttrOptStr (repo ns)
  | d_dir => AttrOptStr (dir ns)
  | d_name => AttrOptStr (name ns)
  | d_token => AttrOptStr (token ns)
  | d_output => AttrStr (output ns)
  | d_include => AttrPatterns (include ns)
  | d_exclude => AttrPatterns (exclude ns)
  | d_max_size => AttrInt (max_size ns)
  | d_language => AttrStr (language_ ns)
  | d_no_cache => AttrBool (no_cache ns)
  | d_max_abstractions => AttrInt (max_abstractions ns)
  | d_text_only => AttrBool (text_only_ ns)
  | d_max_tokens => AttrInt (max_tokens_ ns)
  end.

(** What the parser knows about the source group while it runs: an action
    of the group has been taken exactly when its attribute is set, and the
    two actions have never both been taken. *)
Definition source_inv (st : ParserState) : Prop :=
  (d_repo ∈ seen st ↔ is_Some (repo (namespace st))) ∧
  (d_dir ∈ seen st ↔ is_Some (dir (namespace st))) ∧
  ¬ (d_repo ∈ seen st ∧ d_dir ∈ seen st).

End Main.

(** * Properties of the call gateway *)

Module GatewayProps.
Import Gateway.

(** ** Bookkeeping lemmas *)

Lemma logged_app w w' l : log w' = log w ++ l → logged w w' = l.
Proof. intros E. unfold logged. by rewrite E, drop_app_length. Qed.

Lemma performed_app w w' l : trace w' = trace w ++ l → performed w w' = l.
Proof. intros E. unfold performed. by rewrite E, drop_app_length. Qed.

Lemma load_events_no_request f : filter is_request (load_events f) = [].
Proof. by destruct f. Qed.

Lemma load_events_no_write f : filter is_write (load_events f) = [].
Proof. by destruct f. Qed.

(** One load of the cache file never raises: it yields what the file
    holds, or the empty mapping, and leaves the file as it is. *)
Lemma load_cache_run w :
  load_cache w =
    (Ok (cached (cache_file w)),
     {| cache_file := cache_file w;
        log := log w ++ load_errors (cache_file w);
        trace := trace w ++ load_events (cache_file w) |}).
Proof.
  unfold load_cache, io_bind, path_exists, try_except, json_load, logger, io_ret.
  destruct w as [f l t]; simpl.
  destruct f; unfold append_log, emit; simpl;
    rewrite <- ?app_assoc, ?app_nil_r; reflexivity.
Qed.

(** A prompt found among the loaded keys means a file that holds an
    object. *)
Lemma loaded_Some f prompt r :
  loaded f !! prompt = Some r → ∃ m, f = Stored m ∧ m !! prompt = Some r.
Proof. destruct f; simpl; rewrite ?lookup_empty; try done. by eexists. Qed.

Lemma insert_raises_check f prompt :
  insert_raises f = false → check_raises f prompt = false.
Proof. by destruct f. Qed.

(** The run of [call_llm] on a cache hit. *)
Lemma call_llm_hit env w prompt r :
  loaded (cache_file w) !! prompt = Some r →
  call_llm env prompt true w =
    (Ok r,
     {| cache_file := cache_file w;
        log := log w ++ [InfoPrompt prompt; InfoTokenCount (estimate_tokens prompt)]
                 ++ load_errors (cache_file w) ++ [InfoResponse r];
        trace := trace w ++ load_events (cache_file w) |}).
Proof.
  intros Hhit.
  destruct (loaded_Some _ _ _ Hhit) as (m & Hf & Hm).
  unfold call_llm, check_cache, io_bind at 1 2 3 4.
  unfold logger at 1 2; simpl.
  rewrite load_cache_run; simpl. rewrite Hf; simpl.
  unfold io_bind at 1, py_in, io_ret at 1.
  rewrite bool_decide_eq_true_2 by (by rewrite Hm).
  unfold io_bind, py_getitem. rewrite Hm.
  unfold logger, io_ret, append_log; simpl.
  by rewrite <- !app_assoc.
Qed.

(** The run of [call_llm] when the check of lines 65-66 raises: nothing
    but the load has happened. *)
Lemma call_llm_check_raises env w prompt :
  check_raises (cache_file w) prompt = true →
  call_llm env prompt true w =
    (Raised TypeError,
     {| cache_file := cache_file w;
        log := log w ++ [InfoPrompt prompt; InfoTokenCount (estimate_tokens prompt)];
        trace := trace w ++ [EvExists; EvRead] |}).
Proof.
  intros Hraises.
  unfold call_llm, check_cache, io_bind at 1 2 3 4.
  unfold logger at 1 2; simpl.
  rewrite load_cache_run; simpl.
  destruct (cache_file w) as [| |m|v] eqn:Hf; try discriminate Hraises.
  unfold io_bind, py_in, py_getitem, raise, io_ret, append_log; simpl.
  destruct v as [| | |s|items]; simpl in *; rewrite ?Hraises; simpl;
    by rewrite <- ?app_assoc, ?app_nil_r.
Qed.

(** The run of [call_llm] when the backend is reached: caching disabled,
    or the prompt found neither among the loaded keys nor in a string or
    list the file holds. *)
Lemma call_llm_backend env w prompt use_cache :
  use_cache = false ∨
    (loaded (cache_file w) !! prompt = None ∧
     check_raises (cache_file w) prompt = false) →
  call_llm env prompt use_cache w =
    let req := request_for env prompt in
    let n := length (requests w) in
    let f' := meanwhile env n (cache_file w) in
    let log0 := log w ++ [InfoPrompt prompt; InfoTokenCount (estimate_tokens prompt)]
                  ++ (if use_cache then load_errors (cache_file w) else []) in
    let trace0 := trace w ++ (if use_cache then load_events (cache_file w) else [])
                    ++ [EvRequest req] in
    match llm env n req with
    | Fail e => (Raised e, {| cache_file := f'; log := log0; trace := trace0 |})
    | Respond r =>
        if use_cache then
          if insert_raises f' then
            (Raised TypeError,
             {| cache_file := f'; log := log0 ++ [InfoResponse r];
                trace := trace0 ++ load_events f' |})
          else
            let m := <[prompt := r]> (loaded f') in
            let o := disk env (length (writes w)) in
            (Ok r, {| cache_file := after_save f' o m;
                      log := log0 ++ [InfoResponse r] ++ load_errors f' ++ save_errors o;
                      trace := trace0 ++ load_events f' ++ [EvWrite m] |})
        else
          (Ok r, {| cache_file := f'; log := log0 ++ [InfoResponse r]; trace := trace0 |})
    end.
Proof.
  intros Hmiss.
  assert (Hcheck : check_cache prompt use_cache (append_log (InfoTokenCount (estimate_tokens prompt)) (append_log (InfoPrompt prompt) w)) =
     (Ok None, {| cache_file := cache_file w;
                  log := log w ++ [InfoPrompt prompt; InfoTokenCount (estimate_tokens prompt)]
                           ++ (if use_cache then load_errors (cache_file w) else []);
                  trace := trace w ++ (if use_cache then load_events (cache_file w) else []) |})).
  { unfold check_cache. destruct use_cache.
    - destruct Hmiss as [?|[Hmiss Hcheck]]; [done|].
      unfold io_bind at 1. rewrite load_cache_run; simpl.
      assert (Hin : ∀ w0, py_in prompt (cached (cache_file w)) w0 = (Ok false, w0)).
      { intros w0. destruct (cache_file w) as [| |m|v]; simpl in *.
        - unfold io_ret. by rewrite lookup_empty.
        - unfold io_ret. by rewrite lookup_empty.
        - unfold io_ret. by rewrite Hmiss.
        - destruct v; simpl in *; try discriminate Hcheck;
            unfold io_ret; by rewrite Hcheck. }
      unfold io_bind. rewrite Hin.
      unfold io_ret. by rewrite <- !app_assoc.
    - unfold io_ret, append_log; simpl. by rewrite <- !app_assoc, !app_nil_r. }
  unfold call_llm, io_bind at 1 2 3. unfold logger at 1 2.
  rewrite Hcheck. clear Hcheck.
  unfold io_bind at 1, chat_completions_create; simpl.
  assert (Hreq : ∀ f l,
    requests {| cache_file := f; log := l;
                trace := trace w ++ (if use_cache then load_events (cache_file w) else []) |}
    = requests w).
  { intros f l. unfold requests; simpl. rewrite filter_app.
    destruct use_cache; [rewrite load_events_no_request|simpl]; by rewrite app_nil_r. }
  rewrite !Hreq.
  destruct (llm env (length (requests w)) (request_for env prompt)) as [r|e];
    simpl; [|unfold set_cache_file, emit; simpl; by rewrite <- !app_assoc].
  unfold io_bind, logger, update_cache. simpl.
  destruct use_cache; simpl.
  - unfold io_bind. rewrite load_cache_run; simpl.
    destruct (meanwhile env (length (requests w)) (cache_file w)) as [|e0|m|v] eqn:Hf';
      simpl.
    4:{ unfold raise, append_log, set_cache_file, emit; simpl.
        by rewrite <- ?app_assoc, ?app_nil_r. }
    all: unfold io_ret at 1, try_except, json_dump, writes; simpl.
    all: rewrite !filter_app, ?load_events_no_write; simpl; rewrite ?app_nil_r.
    all: destruct (disk env _) as [|e|e e']; simpl;
      unfold io_ret, logger, append_log, set_cache_file, emit; simpl;
      rewrite <- ?app_assoc; simpl; rewrite ?app_nil_r; reflexivity.
  - unfold io_ret, append_log, set_cache_file, emit; simpl.
    by rewrite <- ?app_assoc, ?app_nil_r.
Qed.

(** The same run when, besides, the file re-read for the update does not
    hold a JSON value other than an object. *)
Lemma call_llm_miss env w prompt use_cache :
  use_cache = false ∨
    (loaded (cache_file w) !! prompt = None ∧
     check_raises (cache_file w) prompt = false ∧
     insert_raises (meanwhile env (length (requests w)) (cache_file w)) = false) →
  call_llm env prompt use_cache w =
    let req := request_for env prompt in
    let n := length (requests w) in
    let f' := meanwhile env n (cache_file w) in
    let log0 := log w ++ [InfoPrompt prompt; InfoTokenCount (estimate_tokens prompt)]
                  ++ (if use_cache then load_errors (cache_file w) else []) in
    let trace0 := trace w ++ (if use_cache then load_events (cache_file w) else [])
                    ++ [EvRequest req] in
    match llm env n req with
    | Fail e => (Raised e, {| cache_file := f'; log := log0; trace := trace0 |})
    | Respond r =>
        if use_cache then
          let m := <[prompt := r]> (loaded f') in
          let o := disk env (length (writes w)) in
          (Ok r, {| cache_file := after_save f' o m;
                    log := log0 ++ [InfoResponse r] ++ load_errors f' ++ save_errors o;
                    trace := trace0 ++ load_events f' ++ [EvWrite m] |})
        else
          (Ok r, {| cache_file := f'; log := log0 ++ [InfoResponse r]; trace := trace0 |})
    end.
Proof.
  intros H. rewrite call_llm_backend by (destruct H as [?|(?&?&?)]; auto).
  cbv zeta. destruct (llm env _ _) as [r|e]; [|done].
  destruct use_cache; [|done].
  destruct H as [?|(_ & _ & ->)]; done.
Qed.

(** A prompt that is among the loaded keys is answered from the cache: the
    stored text is returned, the backend is not contacted, and the cache
    file is only read. *)
Lemma cache_hit_skips_backend env w prompt r :
  loaded (cache_file w) !! prompt = Some r →
  let '(res, w') := call_llm env prompt true w in
  res = Ok r ∧ backend_calls w w' = 0 ∧
  filter is_write (performed w w') = [] ∧ cache_file w' = cache_file w.
Proof.
  intros Hhit. rewrite (call_llm_hit env w prompt r Hhit).
  unfold backend_calls.
  rewrite (performed_app _ _ (load_events (cache_file w))) by reflexivity.
  by rewrite load_events_no_request, load_events_no_write.
Qed.

(** ** The token estimate *)

(** C9: the token estimate is the floor of the character length divided by
    four: it is the unique [n] with [4 n <= len < 4 (n + 1)], it agrees with
    integer floor division, it is zero below four characters, and it never
    decreases when the text gets longer. *)
Theorem estimate_tokens_floor (text : string) :
  let n := estimate_tokens text in
  4 * n ≤ String.length text < 4 * (n + 1) ∧
  Z.of_nat n = (Z.of_nat (String.length text) / 4)%Z ∧
  (String.length text < 4 → n = 0) ∧
  (∀ text' : string,
      String.length text ≤ String.length text' → n ≤ estimate_tokens text').
Proof.
  unfold estimate_tokens; cbv zeta.
  pose proof (Nat.div_mod_eq (String.length text) 4) as Hdiv.
  pose proof (Nat.mod_upper_bound (String.length text) 4) as Hmod.
  repeat split.
  - lia.
  - lia.
  - by rewrite Nat2Z.inj_div.
  - intros Hlt. by apply Nat.div_small.
  - intros text' Hle. by apply Nat.Div0.div_le_mono.
Qed.

Lemma estimate_tokens_floor_witness :
  estimate_tokens "abc" = 0 ∧ estimate_tokens "abcdefgh" = 2 ∧
  estimate_tokens "abc" ≤ estimate_tokens "abcdefgh".
Proof.
  destruct (estimate_tokens_floor "abc") as (_ & _ & Hsmall & Hmono).
  split; [apply Hsmall; simpl; lia|].
  split; [reflexivity|].
  apply Hmono; simpl; lia.
Defined.

(** ** Caching disabled *)

(** C2: with [use_cache] false the only operation of the gateway on the
    outside world is one backend request; the result is the backend's
    outcome whatever the cache file holds; no existence check, read or write
    of the cache file is performed, so the file is as the other writers left
    it, and unchanged when there are none. *)
Theorem cache_bypass (env : Env) (w : World) (prompt : string) :
  let '(res, w') := call_llm env prompt false w in
  let n := length (requests w) in
  performed w w' = [EvRequest (request_for env prompt)] ∧
  filter touches_cache_file (performed w w') = [] ∧
  res = outcome (llm env n (request_for env prompt)) ∧
  cache_file w' = meanwhile env n (cache_file w) ∧
  (meanwhile env n (cache_file w) = cache_file w → cache_file w' = cache_file w).
Proof.
  rewrite call_llm_miss by (by left).
  cbv zeta.
  destruct (llm env _ _) as [r|e]; simpl;
    rewrite (performed_app _ _ [EvRequest (request_for env prompt)]) by reflexivity;
    auto.
Qed.

(** A stored entry for the prompt is there, and the backend is asked all
    the same. *)
Lemma cache_bypass_witness :
  let env := quiet_env (λ _, Respond "live") (λ _, Saved) in
  let w := fresh (Stored {[ "p" := "stored" ]}) in
  let '(res, w') := call_llm env "p" false w in
  res = Ok "live" ∧ backend_calls w w' = 1 ∧ cache_file w' = cache_file w.
Proof.
  pose proof (cache_bypass (quiet_env (λ _, Respond "live") (λ _, Saved))
                (fresh (Stored {[ "p" := "stored" ]})) "p") as H.
  cbv zeta in *.
  destruct (call_llm _ _ _ _) as [res w'].
  destruct H as (Hp & _ & Hres & _ & Hsame).
  split; [exact Hres|]. split; [|apply Hsame; reflexivity].
  unfold backend_calls. rewrite Hp. reflexivity.
Defined.

(** ** The backend call *)

(** C5: when caching is disabled, or the check of the cache falls through
    (the prompt is not among the loaded keys, and the check does not raise
    on a file that holds no object), the gateway sends exactly one request,
    whose only message is the prompt in the user role; when that request
    fails, the caller gets the very exception the backend raised, and
    nothing is written to the cache. When the request is answered the
    caller gets the answer, unless the insertion into a file that holds no
    object raises. *)
Theorem miss_single_request (env : Env) (w : World) (prompt : string) (use_cache : bool) :
  use_cache = false ∨
    (loaded (cache_file w) !! prompt = None ∧
     check_raises (cache_file w) prompt = false) →
  let '(res, w') := call_llm env prompt use_cache w in
  let req := request_for env prompt in
  let reread := meanwhile env (length (requests w)) (cache_file w) in
  filter is_request (performed w w') = [EvRequest req] ∧
  messages req = [ {| role := "user"; content := prompt |} ] ∧
  backend_calls w w' = 1 ∧
  (use_cache = false ∨ insert_raises reread = false →
   res = outcome (llm env (length (requests w)) req)) ∧
  (∀ e, llm env (length (requests w)) req = Fail e →
        res = Raised e ∧ filter is_write (performed w w') = []).
Proof.
  intros Hmiss. rewrite call_llm_backend by done. cbv zeta.
  unfold backend_calls.
  destruct (llm env _ _) as [r|e] eqn:Hllm; destruct use_cache; simpl.
  1: destruct (insert_raises (meanwhile env _ _)) eqn:Hins.
  all: erewrite performed_app by (simpl; rewrite <- ?app_assoc; reflexivity).
  all: rewrite ?filter_app, ?load_events_no_request, ?load_events_no_write; simpl.
  all: rewrite ?load_events_no_request; simpl.
  all: repeat split; try congruence.
  all: intros [?|?]; congruence.
Qed.

Lemma miss_single_request_witness :
  let env := quiet_env (λ _, Fail (Exn "APIConnectionError")) (λ _, Saved) in
  let w := fresh (Stored {[ "other" := "stored" ]}) in
  let '(res, w') := call_llm env "p" true w in
  res = Raised (Exn "APIConnectionError") ∧ backend_calls w w' = 1 ∧
  cache_file w' = cache_file w.
Proof.
  pose proof (miss_single_request
                (quiet_env (λ _, Fail (Exn "APIConnectionError")) (λ _, Saved))
                (fresh (Stored {[ "other" := "stored" ]})) "p" true
                (or_intror (conj eq_refl eq_refl))) as H.
  cbv zeta in *.
  destruct (call_llm _ _ _ _) as [res w'] eqn:Hrun.
  destruct H as (_ & _ & Hone & Hres & _).
  split; [exact (Hres (or_intror eq_refl))|]. split; [exact Hone|].
  vm_compute in Hrun. by injection Hrun as _ <-.
Defined.

(** ** Updating the cache after a miss *)


(** With [null] the check of line 65 raises before any backend call; with a
    list that holds the prompt the check finds it and the indexing of line
    66 raises. *)
Example non_object_cache_breaks_check :
  let env := quiet_env (λ _, Respond "R1") (λ _, Saved) in
  (let w := fresh (OtherJson JNull) in
   let '(res, w') := call_llm env "p" true w in
   res = Raised TypeError ∧ backend_calls w w' = 0) ∧
  (let w := fresh (OtherJson (JArray [Some "p"])) in
   let '(res, w') := call_llm env "p" true w in
   res = Raised TypeError ∧ backend_calls w w' = 0 ∧
   log w' = [InfoPrompt "p"; InfoTokenCount 0]).
Proof. vm_compute. done. Qed.




(** A save that fails: the response still reaches the caller. *)
Example save_failure_is_swallowed :
  let env := quiet_env (λ _, Respond "R1") (λ _, OpenFailed (Exn "PermissionError")) in
  let '(res, w') := call_llm env "p" true (fresh Missing) in
  res = Ok "R1" ∧ cache_file w' = Missing ∧
  log w' = [InfoPrompt "p"; InfoTokenCount 0; InfoResponse "R1";
            ErrorSaveCache (Exn "PermissionError")].
Proof. vm_compute. done. Qed.

(** ** A cache file that is missing or does not load *)

(** With no cache file the existence check of line 57 skips the load, and
    the log holds no error record at all. *)
Example missing_file_logs_nothing :
  let env := quiet_env (λ _, Respond "R1") (λ _, Saved) in
  let '(res, w') := call_llm env "p" true (fresh Missing) in
  res = Ok "R1" ∧
  log w' = [InfoPrompt "p"; InfoTokenCount 0; InfoResponse "R1"] ∧
  trace w' = [EvExists; EvRequest (request_for env "p"); EvExists;
              EvWrite {[ "p" := "R1" ]}].
Proof. vm_compute. done. Qed.

(** C3, as stated, fails: a missing cache file leaves no load error in the
    log. *)
Lemma cache_resilience_counterexample : ¬ cache_resilience_as_stated.
Proof.
  intros H.
  specialize (H (quiet_env (λ _, Respond "R1") (λ _, Saved)) (fresh Missing) "p" eq_refl).
  pose proof missing_file_logs_nothing as Hlog. cbv zeta in Hlog.
  destruct (call_llm _ _ _ _) as [res w'].
  destruct H as (_ & e & He). destruct Hlog as (_ & Hlog & _).
  unfold logged in He. rewrite Hlog in He. simpl in He.
  rewrite !elem_of_cons in He.
  destruct He as [He|[He|[He|He]]]; try discriminate He.
  by apply elem_of_nil in He.
Qed.

(** C3, amended: when the cache file is missing or fails to load, the load
    yields the empty mapping, exactly one backend request is made and its
    outcome is what the caller gets, so no load error is ever raised to the
    caller (the file put there by another process while the request is in
    flight must hold an object, if it loads, for the update to go through).
    A file that fails to load has its error logged; a missing file is not an
    error and, unless an unreadable file appears while the request is in
    flight, no load error is logged. *)
Theorem cache_load_resilience (env : Env) (w : World) (prompt : string) :
  load_fails (cache_file w) = true →
  let '(res, w') := call_llm env prompt true w in
  let n := length (requests w) in
  let req := request_for env prompt in
  let reread := meanwhile env n (cache_file w) in
  loaded (cache_file w) = ∅ ∧
  (insert_raises reread = false → res = outcome (llm env n req)) ∧
  (∀ r, llm env n req = Respond r → insert_raises reread = false → res = Ok r) ∧
  filter is_request (performed w w') = [EvRequest req] ∧
  (∀ e, cache_file w = Unreadable e → ErrorLoadCache e ∈ logged w w') ∧
  (cache_file w = Missing → load_errors (meanwhile env n Missing) = [] →
   filter is_load_error (logged w w') = []).
Proof.
  intros Hfails.
  assert (Hempty : loaded (cache_file w) = ∅) by (by destruct (cache_file w)).
  assert (Hcheck : check_raises (cache_file w) prompt = false)
    by (by destruct (cache_file w)).
  assert (Hmiss : true = false ∨
            (loaded (cache_file w) !! prompt = None ∧
             check_raises (cache_file w) prompt = false))
    by (right; by rewrite Hempty).
  pose proof (miss_single_request env w prompt true Hmiss) as Hone.
  rewrite call_llm_backend in * by done.
  cbv zeta in *.
  generalize dependent (meanwhile env (length (requests w))).
  intros mw Hone.
  destruct (llm env _ _) as [r|e0]; simpl in *.
  1: destruct (insert_raises (mw (cache_file w))) eqn:Hins.
  all: destruct Hone as (Hreq & _ & _ & _ & _).
  all: split; [done|]; split; [done|]; split; [congruence|]; split; [done|].
  all: erewrite logged_app by (simpl; rewrite <- ?app_assoc; reflexivity).
  all: split.
  all: try (intros e ->; simpl; by repeat constructor).
  all: intros -> Hquiet; simpl; rewrite ?Hquiet; simpl.
  all: try done.
  by destruct (disk env _).
Qed.

Lemma cache_load_resilience_witness :
  let env := quiet_env (λ _, Respond "R1") (λ _, Saved) in
  let w := fresh (Unreadable (Exn "JSONDecodeError")) in
  let '(res, w') := call_llm env "p" true w in
  res = Ok "R1" ∧ ErrorLoadCache (Exn "JSONDecodeError") ∈ logged w w'.
Proof.
  pose proof (cache_load_resilience (quiet_env (λ _, Respond "R1") (λ _, Saved))
                (fresh (Unreadable (Exn "JSONDecodeError"))) "p" eq_refl) as H.
  cbv zeta in *.
  destruct (call_llm _ _ _ _) as [res w'].
  destruct H as (_ & _ & Hres & _ & Herr & _).
  split; [by apply Hres | by apply Herr].
Defined.

(** ** Two invocations with the same prompt *)

(** In a directory where the cache file cannot be created the first response
    is never stored: the second invocation calls the backend again, and
    returns whatever it answers this time. *)
Example unsaved_response_is_asked_again :
  let env := quiet_env (λ n, match n with 0 => Respond "R1" | _ => Respond "R2" end)
                       (λ _, OpenFailed (Exn "PermissionError")) in
  let w := fresh Missing in
  let '(res1, w1) := call_llm env "p" true w in
  let '(res2, w2) := call_llm env "p" true w1 in
  res1 = Ok "R1" ∧ res2 = Ok "R2" ∧ backend_calls w w2 = 2.
Proof. vm_compute. done. Qed.

(** A prompt that is already cached is answered twice from the cache: no
    backend call at all. *)
Example cached_prompt_is_never_asked :
  let env := quiet_env (λ _, Respond "R2") (λ _, Saved) in
  let w := fresh (Stored {[ "p" := "R1" ]}) in
  let '(res1, w1) := call_llm env "p" true w in
  let '(res2, w2) := call_llm env "p" true w1 in
  res1 = Ok "R1" ∧ res2 = Ok "R1" ∧ backend_calls w w2 = 0.
Proof. vm_compute. done. Qed.

(** A backend that fails: the first invocation raises, and the second one
    calls the backend again. *)
Example failed_call_is_asked_again :
  let env := quiet_env (λ n, match n with 0 => Fail (Exn "APITimeoutError") | _ => Respond "R2" end)
                       (λ _, Saved) in
  let w := fresh Missing in
  let '(res1, w1) := call_llm env "p" true w in
  let '(res2, w2) := call_llm env "p" true w1 in
  res1 = Raised (Exn "APITimeoutError") ∧ res2 = Ok "R2" ∧ backend_calls w w2 = 2.
Proof. vm_compute. done. Qed.

(** C1, as stated, fails: when the save fails there are two backend calls,
    and the two responses differ. *)
Lemma cache_correctness_counterexample : ¬ cache_correctness_as_stated.
Proof.
  intros H.
  specialize (H (quiet_env (λ n, match n with 0 => Respond "R1" | _ => Respond "R2" end)
                           (λ _, OpenFailed (Exn "PermissionError")))
                (fresh Missing) "p").
  pose proof unsaved_response_is_asked_again as Hrun. cbv zeta in Hrun.
  destruct (call_llm _ _ _ _) as [res1 w1].
  destruct (call_llm _ _ _ _) as [res2 w2].
  destruct H as (Hone & _). destruct Hrun as (_ & _ & Htwo).
  rewrite Htwo in Hone. discriminate Hone.
Qed.

(** C1, amended: for a prompt that is not yet in the cache, when the backend
    answers the first invocation and the save of the cache file succeeds
    (the entry is inserted into the mapping read back, and the mapping is
    written), two cache-enabled invocations with that prompt make exactly
    one backend call, the first one; both return the backend's response, the
    second one from the entry the first one stored. *)
Theorem cache_correctness (env : Env) (w : World) (prompt r : string) :
  loaded (cache_file w) !! prompt = None →
  check_raises (cache_file w) prompt = false →
  llm env (length (requests w)) (request_for env prompt) = Respond r →
  insert_raises (meanwhile env (length (requests w)) (cache_file w)) = false →
  disk env (length (writes w)) = Saved →
  let '(res1, w1) := call_llm env prompt true w in
  let '(res2, w2) := call_llm env prompt true w1 in
  res1 = Ok r ∧ res2 = Ok r ∧
  backend_calls w w2 = 1 ∧
  backend_calls w w1 = 1 ∧ backend_calls w1 w2 = 0 ∧
  loaded (cache_file w1) !! prompt = Some r ∧
  cache_file w2 = cache_file w1.
Proof.
  intros Hmiss Hcheck Hllm Hins Hdisk.
  rewrite call_llm_miss by (by right). cbv zeta. rewrite Hllm, Hdisk.
  match goal with |- context [call_llm env prompt true ?x] => set (w1 := x) end.
  assert (Hhit : loaded (cache_file w1) !! prompt = Some r)
    by apply lookup_insert_eq.
  rewrite (call_llm_hit env w1 prompt r Hhit).
  unfold backend_calls.
  split; [done|]. split; [done|].
  erewrite (performed_app w) by (simpl; rewrite <- ?app_assoc; reflexivity).
  erewrite (performed_app w w1) by (simpl; rewrite <- ?app_assoc; reflexivity).
  erewrite (performed_app w1) by reflexivity.
  rewrite !filter_app, !load_events_no_request. simpl.
  rewrite ?filter_app, ?load_events_no_request. done.
Qed.

(** The scenario of the design document: an empty cache file, the prompt
    answered ["R1"], the entry stored, and a second invocation served from
    it. *)
Lemma cache_correctness_witness :
  let env := quiet_env (λ n, match n with 0 => Respond "R1" | _ => Respond "R2" end)
                       (λ _, Saved) in
  let w := fresh (Stored ∅) in
  let '(res1, w1) := call_llm env "Identify abstractions in file X" true w in
  let '(res2, w2) := call_llm env "Identify abstractions in file X" true w1 in
  res1 = Ok "R1" ∧ res2 = Ok "R1" ∧ backend_calls w w2 = 1 ∧
  loaded (cache_file w1) !! "Identify abstractions in file X" = Some "R1".
Proof.
  pose proof (cache_correctness
    (quiet_env (λ n, match n with 0 => Respond "R1" | _ => Respond "R2" end) (λ _, Saved))
    (fresh (Stored ∅)) "Identify abstractions in file X" "R1"
    eq_refl eq_refl eq_refl eq_refl eq_refl) as H.
  cbv zeta in *.
  destruct (call_llm _ _ _ _) as [res1 w1].
  destruct (call_llm _ _ _ w1) as [res2 w2].
  destruct H as (H1 & H2 & Hone & _ & _ & Hstored & _).
  split; [exact H1|]. split; [exact H2|]. split; [exact Hone | exact Hstored].
Defined.

End GatewayProps.

(** * Properties of the configuration loader *)

Module MainProps.
Import Main.

(** ** The parser *)

Lemma seen_any_spec ds seen :
  seen_any ds seen = true ↔ ∃ d, d ∈ ds ∧ d ∈ seen.
Proof.
  unfold seen_any. by rewrite bool_decide_eq_true, Exists_exists.
Qed.

Lemma seen_any_false ds seen :
  seen_any ds seen = false ↔ ∀ d, d ∈ ds → d ∉ seen.
Proof.
  unfold seen_any. rewrite bool_decide_eq_false, Exists_exists. split.
  - intros H d Hd Hs. apply H. eauto.
  - intros H (d & Hd & Hs). by apply (H d).
Qed.

Lemma take_action_inr a st st' :
  take_action a st = inr st' →
  a ≠ Help ∧
  (∀ d, d ∈ action_conflicts (dest a) → d ∉ seen st) ∧
  st' = {| namespace := store a (namespace st); seen := dest a :: seen st |}.
Proof.
  unfold take_action. intros H.
  destruct (seen_any (action_conflicts (dest a)) (seen st)) eqn:Hc.
  - by destruct a.
  - rewrite seen_any_false in Hc.
    destruct a; try discriminate H; by injection H as <-.
Qed.

Lemma source_inv_init : source_inv {| namespace := defaults; seen := [] |}.
Proof.
  unfold source_inv; simpl. rewrite !elem_of_nil.
  repeat split; try tauto; by intros [? [=]].
Qed.

Lemma take_action_inv a st st' :
  source_inv st → take_action a st = inr st' → source_inv st'.
Proof.
  intros (Hr & Hd & Hex) H.
  apply take_action_inr in H as (Hhelp & Hconf & ->).
  unfold source_inv; simpl. rewrite !elem_of_cons.
  assert (Hsome : ∀ s : string, is_Some (Some s)) by (intros; by eexists).
  destruct a; simpl in *; try done.
  1: assert (d_dir ∉ seen st) by (apply Hconf; by left).
  2: assert (d_repo ∉ seen st) by (apply Hconf; by left).
  all: intuition (try discriminate; auto).
Qed.

Lemma consume_inv argv st st' :
  source_inv st → consume argv st = inr st' → source_inv st'.
Proof.
  revert st. induction argv as [|a rest IH]; intros st Hinv H; simpl in H.
  - by injection H as <-.
  - destruct (take_action a st) as [exit|st1] eqn:Ha; [done|].
    eapply IH; [|done]. by eapply take_action_inv.
Qed.

(** The actions taken are those the parser started with and those of the
    command line. *)
Lemma consume_seen argv st st' d :
  consume argv st = inr st' →
  d ∈ seen st' ↔ d ∈ seen st ∨ given d argv = true.
Proof.
  revert st. induction argv as [|a rest IH]; intros st H; simpl in H.
  - injection H as <-. unfold given; simpl. intuition discriminate.
  - destruct (take_action a st) as [exit|st1] eqn:Ha; [done|].
    rewrite (IH _ H).
    apply take_action_inr in Ha as (_ & _ & ->); simpl.
    unfold given, omitted in *; simpl. rewrite elem_of_cons.
    destruct (decide (dest a = d)) as [->|Hne].
    + rewrite bool_decide_eq_true_2 by done. simpl. intuition auto.
    + rewrite (bool_decide_eq_false_2 _ Hne). simpl. intuition congruence.
Qed.

(** An option that does not occur leaves its attribute as it was. *)
Lemma store_other a ns d : dest a ≠ d → getattr (store a ns) d = getattr ns d.
Proof. by destruct a, d. Qed.

Lemma omitted_cons d a argv :
  omitted d (a :: argv) = true ↔ dest a ≠ d ∧ omitted d argv = true.
Proof.
  unfold omitted; simpl.
  rewrite andb_true_iff, negb_true_iff, bool_decide_eq_false. done.
Qed.

Lemma consume_omitted argv st st' d :
  consume argv st = inr st' → omitted d argv = true →
  getattr (namespace st') d = getattr (namespace st) d.
Proof.
  revert st. induction argv as [|a rest IH]; intros st H Hom; simpl in H.
  - by injection H as <-.
  - destruct (take_action a st) as [exit|st1] eqn:Ha; [done|].
    apply omitted_cons in Hom as [Hne Hom].
    rewrite (IH _ H Hom).
    apply take_action_inr in Ha as (_ & _ & ->); simpl.
    by apply store_other.
Qed.

(** A [store_true] flag, once set, stays set. *)
Lemma consume_text_only argv st st' :
  consume argv st = inr st' →
  text_only_ (namespace st) = true ∨ given d_text_only argv = true →
  text_only_ (namespace st') = true.
Proof.
  revert st. induction argv as [|a rest IH]; intros st H Hset; simpl in H.
  - injection H as <-. by destruct Hset.
  - destruct (take_action a st) as [exit|st1] eqn:Ha; [done|].
    apply (IH _ H).
    apply take_action_inr in Ha as (_ & _ & ->); simpl.
    unfold given, omitted in *; simpl in *.
    destruct a; simpl in *; auto.
Qed.

(** Without [-h], the only exit of the parser is an error. *)
Lemma consume_exit argv st exit :
  consume argv st = inl exit → omitted d_help argv = true →
  ∃ message, exit = SystemExit 2 message.
Proof.
  revert st. induction argv as [|a rest IH]; intros st H Hom; simpl in H; [done|].
  apply omitted_cons in Hom as [Hne Hom].
  destruct (take_action a st) as [exit1|st1] eqn:Ha; [|by eapply IH].
  injection H as <-. unfold take_action in Ha.
  destruct a; try done;
    destruct (seen_any _ _); try done; injection Ha as <-; by eexists.
Qed.

(** With one member of the source group absent from the command line and
    not taken before, and without [-h], every action is accepted. *)
Lemma consume_runs argv st d :
  d = d_repo ∨ d = d_dir →
  omitted d_help argv = true → omitted d argv = true → d ∉ seen st →
  ∃ st', consume argv st = inr st'.
Proof.
  intros Hd. revert st.
  induction argv as [|a rest IH]; intros st Hhelp Hom Hseen; simpl; [by eexists|].
  apply omitted_cons in Hhelp as [Hnh Hhelp].
  apply omitted_cons in Hom as [Hne Hom].
  assert (Hok : seen_any (action_conflicts (dest a)) (seen st) = false).
  { apply seen_any_false. intros c Hc.
    destruct a; simpl in Hc; try by apply elem_of_nil in Hc.
    all: apply list_elem_of_singleton in Hc; subst c.
    all: destruct Hd; subst d; done. }
  unfold take_action. rewrite Hok.
  destruct a; try done; apply IH; try done; simpl in *;
    rewrite elem_of_cons; intros [?|?]; congruence.
Qed.

Lemma parse_args_inr argv args :
  parse_args argv = inr args →
  ∃ st, consume argv {| namespace := defaults; seen := [] |} = inr st ∧
        args = namespace st ∧ (d_repo ∈ seen st ∨ d_dir ∈ seen st).
Proof.
  unfold parse_args. intros H.
  destruct (consume argv _) as [exit|st] eqn:Hc; [done|].
  destruct (seen_any [d_repo; d_dir] (seen st)) eqn:Hs; [|done].
  injection H as <-. exists st. split; [done|]. split; [done|].
  apply seen_any_spec in Hs as (d & Hd & Hs).
  rewrite !elem_of_cons, elem_of_nil in Hd.
  destruct Hd as [->|[->|[]]]; auto.
Qed.

Lemma main_runflow environ argv shared :
  (main environ argv).1 = RunFlow shared →
  ∃ args, parse_args argv = inr args ∧
          shared = build_shared args (find_github_token environ args).1 ∧
          ∃ prints, (main environ argv).2 = (find_github_token environ args).2 ++ prints ∧
                    filter is_environ_get prints = [].
Proof.
  unfold main. destruct (parse_args argv) as [exit|args]; [done|].
  destruct (find_github_token environ args) as [tok effects] eqn:Hf; simpl.
  intros [= <-]. exists args. rewrite Hf. split; [done|]. split; [done|].
  eexists. split; [reflexivity|done].
Qed.

Lemma main_exit environ argv e :
  parse_args argv = inl e → main environ argv = (Exited e, []).
Proof. unfold main. by intros ->. Qed.

Lemma given_omitted d argv : given d argv = false ↔ omitted d argv = true.
Proof. unfold given. by rewrite negb_false_iff. Qed.

(** A successful parse has taken exactly one action of the source group. *)
Lemma parse_args_source argv args :
  parse_args argv = inr args →
  (is_Some (repo args) ∧ dir args = None ∧
   given d_repo argv = true ∧ given d_dir argv = false) ∨
  (repo args = None ∧ is_Some (dir args) ∧
   given d_repo argv = false ∧ given d_dir argv = true).
Proof.
  intros H. apply parse_args_inr in H as (st & Hc & -> & Hone).
  pose proof (consume_inv _ _ _ source_inv_init Hc) as (Hr & Hd & Hex).
  pose proof (consume_seen _ _ _ d_repo Hc) as Hsr.
  pose proof (consume_seen _ _ _ d_dir Hc) as Hsd.
  simpl in Hsr, Hsd. rewrite elem_of_nil in Hsr, Hsd.
  rewrite <- !not_true_iff_false, !eq_None_not_Some.
  tauto.
Qed.

(** ** The source group *)

(** C6: a command line with both [--repo] and [--dir], or with neither, ends
    the process with no flow run and nothing printed or looked up (with
    status 2 unless [-h] was there first); every shared dictionary the flow
    is run on has exactly one of [repo_url] and [local_dir] set; and a
    command line without [-h] that gives exactly one of the two does run the
    flow. *)
Theorem source_exactly_one (environ : string → option string) (argv : list Arg) :
  (given d_repo argv = given d_dir argv →
   ∃ status message,
     main environ argv = (Exited (SystemExit status message), []) ∧
     (omitted d_help argv = true → status = 2%Z)) ∧
  (∀ shared, (main environ argv).1 = RunFlow shared →
     (is_Some (repo_url shared) ∧ local_dir shared = None) ∨
     (repo_url shared = None ∧ is_Some (local_dir shared))) ∧
  (omitted d_help argv = true → given d_repo argv ≠ given d_dir argv →
   ∃ shared, (main environ argv).1 = RunFlow shared).
Proof.
  split; [|split].
  - intros Hsame.
    destruct (parse_args argv) as [[status message]|args] eqn:Hp.
    + exists status, message. split; [by apply main_exit|].
      intros Hhelp. unfold parse_args in Hp.
      destruct (consume argv _) as [exit|st] eqn:Hc.
      * injection Hp as ->.
        destruct (consume_exit _ _ _ Hc Hhelp) as [m [= -> _]]. done.
      * destruct (seen_any _ _); [done|]. by injection Hp as <- _.
    + apply parse_args_source in Hp. rewrite Hsame in Hp.
      destruct Hp as [(_ & _ & H1 & H2)|(_ & _ & H1 & H2)]; congruence.
  - intros shared H.
    apply main_runflow in H as (args & Hp & -> & _). simpl.
    apply parse_args_source in Hp. tauto.
  - intros Hhelp Hdiff.
    assert (Hrun : ∃ st, consume argv {| namespace := defaults; seen := [] |} = inr st).
    { destruct (given d_repo argv) eqn:Hr, (given d_dir argv) eqn:Hd; try done.
      - apply (consume_runs argv _ d_dir); auto; [by apply given_omitted|].
        simpl. apply not_elem_of_nil.
      - apply (consume_runs argv _ d_repo); auto; [by apply given_omitted|].
        simpl. apply not_elem_of_nil. }
    destruct Hrun as [st Hc].
    assert (Hseen : seen_any [d_repo; d_dir] (seen st) = true).
    { apply seen_any_spec.
      destruct (given d_repo argv) eqn:Hr, (given d_dir argv) eqn:Hd; try done.
      - exists d_repo. split; [by left|]. apply (consume_seen _ _ _ _ Hc). auto.
      - exists d_dir. split; [right; by left|]. apply (consume_seen _ _ _ _ Hc). auto. }
    unfold main, parse_args. rewrite Hc, Hseen.
    destruct (find_github_token environ (namespace st)). simpl. by eexists.
Qed.

Lemma source_exactly_one_witness :
  (∃ message, main (λ _, None) [Repo "https://github.com/o/r"; Dir "/repo"]
              = (Exited (SystemExit 2 message), [])) ∧
  (∃ message, main (λ _, None) [NoCache] = (Exited (SystemExit 2 message), [])) ∧
  (∃ shared, (main (λ _, None) [Dir "/repo"]).1 = RunFlow shared).
Proof.
  split; [|split].
  - destruct (source_exactly_one (λ _, None)
                [Repo "https://github.com/o/r"; Dir "/repo"]) as (H & _ & _).
    destruct (H eq_refl) as (status & message & Hm & Hs).
    rewrite (Hs eq_refl) in Hm. by exists message.
  - destruct (source_exactly_one (λ _, None) [NoCache]) as (H & _ & _).
    destruct (H eq_refl) as (status & message & Hm & Hs).
    rewrite (Hs eq_refl) in Hm. by exists message.
  - destruct (source_exactly_one (λ _, None) [Dir "/repo"]) as (_ & _ & H).
    apply H; [reflexivity | discriminate].
Defined.

(** ** Default patterns and default values *)

(** Membership in a concrete pattern set is settled by evaluation. *)
Ltac by_computing := apply (bool_decide_unpack _); vm_compute; exact I.

Lemma parse_args_omitted argv args d :
  parse_args argv = inr args → omitted d argv = true →
  getattr args d = getattr defaults d.
Proof.
  intros H Hom. apply parse_args_inr in H as (st & Hc & -> & _).
  by rewrite (consume_omitted _ _ _ _ Hc Hom).
Qed.

(** C7: with [--text-only] and neither [-i] nor [-e], the include patterns
    of the shared dictionary are the text-only defaults, which hold [*.md]
    and [*.txt], and not the code defaults, which hold [*.py] and [*.go]
    where the text-only ones do not; the exclude patterns are the text-only
    exclude defaults. *)
Theorem text_only_patterns (environ : string → option string) (argv : list Arg)
    (shared : SharedDict) :
  given d_text_only argv = true →
  omitted d_include argv = true →
  omitted d_exclude argv = true →
  (main environ argv).1 = RunFlow shared →
  include_patterns shared = TEXT_ONLY_INCLUDE_PATTERNS ∧
  exclude_patterns shared = TEXT_ONLY_EXCLUDE_PATTERNS ∧
  ("*.md" ∈ include_patterns shared) ∧ ("*.txt" ∈ include_patterns shared) ∧
  ("*.py" ∈ DEFAULT_INCLUDE_PATTERNS) ∧ ("*.go" ∈ DEFAULT_INCLUDE_PATTERNS) ∧
  ("*.py" ∉ include_patterns shared) ∧ ("*.go" ∉ include_patterns shared) ∧
  include_patterns shared ≠ DEFAULT_INCLUDE_PATTERNS.
Proof.
  intros Htext Hinc Hexc Hrun.
  apply main_runflow in Hrun as (args & Hp & -> & _).
  pose proof (parse_args_omitted _ _ _ Hp Hinc) as [= Hi].
  pose proof (parse_args_omitted _ _ _ Hp Hexc) as [= He].
  apply parse_args_inr in Hp as (st & Hc & -> & _).
  pose proof (consume_text_only _ _ _ Hc (or_intror Htext)) as Ht.
  unfold build_shared; simpl. rewrite Hi, He, Ht.
  repeat split; try done; try by_computing.
Qed.

Lemma text_only_patterns_witness :
  ∃ shared, (main (λ _, None) [Dir "/repo"; TextOnly]).1 = RunFlow shared ∧
            include_patterns shared = TEXT_ONLY_INCLUDE_PATTERNS ∧
            exclude_patterns shared = TEXT_ONLY_EXCLUDE_PATTERNS.
Proof.
  eexists. split; [reflexivity|].
  destruct (text_only_patterns (λ _, None) [Dir "/repo"; TextOnly] _
              eq_refl eq_refl eq_refl eq_refl) as (Hi & He & _).
  split; [exact Hi | exact He].
Defined.

(** C8: an option that does not occur on the command line leaves its
    declared default in the shared dictionary, and the fields the stages
    are to fill start out empty, [final_output_dir] being [None]. *)
Theorem shared_defaults (environ : string → option string) (argv : list Arg)
    (shared : SharedDict) :
  (main environ argv).1 = RunFlow shared →
  (omitted d_output argv = true → output_dir shared = "output") ∧
  (omitted d_max_size argv = true → max_file_size shared = 100000%Z) ∧
  (omitted d_language argv = true → language shared = "english") ∧
  (omitted d_no_cache argv = true → use_cache shared = true) ∧
  (omitted d_max_abstractions argv = true → max_abstraction_num shared = 10%Z) ∧
  (omitted d_text_only argv = true → text_only shared = false) ∧
  (omitted d_max_tokens argv = true → max_tokens shared = 30000%Z) ∧
  files shared = [] ∧ abstractions shared = [] ∧ relationships shared = [] ∧
  chapter_order shared = [] ∧ chapters shared = [] ∧
  final_output_dir shared = None.
Proof.
  intros Hrun.
  apply main_runflow in Hrun as (args & Hp & -> & _).
  pose proof (parse_args_omitted _ _ d_output Hp) as H1.
  pose proof (parse_args_omitted _ _ d_max_size Hp) as H2.
  pose proof (parse_args_omitted _ _ d_language Hp) as H3.
  pose proof (parse_args_omitted _ _ d_no_cache Hp) as H4.
  pose proof (parse_args_omitted _ _ d_max_abstractions Hp) as H5.
  pose proof (parse_args_omitted _ _ d_text_only Hp) as H6.
  pose proof (parse_args_omitted _ _ d_max_tokens Hp) as H7.
  simpl in *.
  repeat split; try done; intros Hom.
  - by injection (H1 Hom).
  - by injection (H2 Hom).
  - by injection (H3 Hom).
  - by injection (H4 Hom) as ->.
  - by injection (H5 Hom).
  - by injection (H6 Hom).
  - by injection (H7 Hom).
Qed.

Lemma shared_defaults_witness :
  ∃ shared, (main (λ _, None) [Dir "/repo"]).1 = RunFlow shared ∧
    output_dir shared = "output" ∧ max_file_size shared = 100000%Z ∧
    language shared = "english" ∧ use_cache shared = true ∧
    max_abstraction_num shared = 10%Z ∧ text_only shared = false ∧
    max_tokens shared = 30000%Z ∧ final_output_dir shared = None.
Proof.
  eexists. split; [reflexivity|].
  destruct (shared_defaults (λ _, None) [Dir "/repo"] _ eq_refl)
    as (H1 & H2 & H3 & H4 & H5 & H6 & H7 & _ & _ & _ & _ & _ & H8).
  repeat split; auto.
Defined.

(** An option that does occur replaces the default. *)
Example given_options_replace_defaults :
  ∃ shared,
    (main (λ _, None) [Repo "u"; Output "out"; NoCache; MaxTokens 5; Include "*.rs" []]).1
      = RunFlow shared ∧
    output_dir shared = "out" ∧ use_cache shared = false ∧
    max_tokens shared = 5%Z ∧ include_patterns shared = list_to_set ["*.rs"] ∧
    exclude_patterns shared = DEFAULT_EXCLUDE_PATTERNS.
Proof. eexists. split; [reflexivity|]. repeat split. Qed.

(** ** The access token *)

(** C10: when the flow is run with no [repo_url], [github_token] is [None]
    and [os.environ] has not been consulted, whatever [--token] and the
    environment hold; and [os.environ] is consulted only in a run whose
    [repo_url] is a non-empty string. *)
Theorem local_dir_has_no_token (environ : string → option string) (argv : list Arg) :
  let '(out, effects) := main environ argv in
  (∀ shared, out = RunFlow shared → repo_url shared = None →
     github_token shared = None ∧ filter is_environ_get effects = []) ∧
  (filter is_environ_get effects ≠ [] →
   ∃ shared url, out = RunFlow shared ∧ repo_url shared = Some url ∧ url ≠ "").
Proof.
  unfold main. destruct (parse_args argv) as [exit|args].
  { split; [by intros shared [=]|]. by intros []. }
  unfold find_github_token.
  destruct (repo args) as [url|] eqn:Hrepo; simpl.
  - assert (Hset : ∀ shared tok, RunFlow (build_shared args tok) = RunFlow shared →
                                 repo_url shared = None → False).
    { intros shared tok [= <-]. simpl. by rewrite Hrepo. }
    destruct url as [|c url]; simpl.
    + split; [intros shared Hs Hn; by destruct (Hset _ _ Hs Hn)|]. by intros [].
    + destruct (truthy (token args)) eqn:Ht; simpl; rewrite ?Ht; simpl;
        [|destruct (truthy (environ "GITHUB_TOKEN"))]; simpl.
      all: split; [intros shared Hs Hn; by destruct (Hset _ _ Hs Hn)|].
      all: intros _; eexists _, _; split; [reflexivity|]; simpl.
      all: by rewrite Hrepo.
  - split; [|by intros []].
    by intros shared [= <-].
Qed.

Lemma local_dir_has_no_token_witness :
  let '(out, effects) := main environ_with_token [Dir "/repo"; Token "from-argv"] in
  ∃ shared, out = RunFlow shared ∧ local_dir shared = Some "/repo" ∧
            github_token shared = None ∧ filter is_environ_get effects = [].
Proof.
  pose proof (local_dir_has_no_token environ_with_token
                [Dir "/repo"; Token "from-argv"]) as H.
  destruct (main _ _) as [out effects] eqn:Hm.
  destruct H as [H _].
  assert (Hout : ∃ shared, out = RunFlow shared ∧ local_dir shared = Some "/repo"
                           ∧ repo_url shared = None).
  { injection Hm as <- _. eexists. split; [reflexivity|]. split; reflexivity. }
  destruct Hout as (shared & Hout & Hdir & Hrepo).
  exists shared. split; [exact Hout|]. split; [exact Hdir|].
  exact (H shared Hout Hrepo).
Defined.

(** With a repository URL the token comes from [--token] or, failing that,
    from the environment. *)
Example repo_token_from_environment :
  ∃ shared effects,
    main environ_with_token [Repo "https://github.com/o/r"] = (RunFlow shared, effects) ∧
    github_token shared = Some "from-env" ∧
    filter is_environ_get effects = [EnvironGet "GITHUB_TOKEN"].
Proof. eexists _, _. split; [reflexivity|]. split; reflexivity. Qed.

End MainProps.

(** * Further properties of the call gateway *)

Module GatewayExtra.
Import Gateway GatewayProps.

(** ** Every invocation *)

(** The prompt is found in the cache, or the check raises on a file that
    holds no object, or the backend is reached. *)
Lemma hit_or_miss (w : World) (prompt : string) (use_cache : bool) :
  (use_cache = true ∧ ∃ r, loaded (cache_file w) !! prompt = Some r) ∨
  (use_cache = true ∧ check_raises (cache_file w) prompt = true) ∨
  (use_cache = false ∨
     (loaded (cache_file w) !! prompt = None ∧
      check_raises (cache_file w) prompt = false)).
Proof.
  destruct use_cache; [|by right; right; left].
  destruct (loaded (cache_file w) !! prompt) as [r|] eqn:H; [left; eauto|].
  destruct (check_raises (cache_file w) prompt) eqn:Hc; right; [left|right]; auto.
Qed.

(** What was logged and performed before an invocation is still there after
    it, followed by what the invocation added. *)
Lemma call_llm_extends env w prompt use_cache :
  let '(res, w') := call_llm env prompt use_cache w in
  log w' = log w ++ logged w w' ∧ trace w' = trace w ++ performed w w'.
Proof.
  destruct (hit_or_miss w prompt use_cache) as [[-> [r Hhit]]|[[-> Hc]|Hmiss]].
  - rewrite (call_llm_hit env w prompt r Hhit).
    erewrite logged_app, performed_app by reflexivity. done.
  - rewrite (call_llm_check_raises env w prompt Hc).
    erewrite logged_app, performed_app by reflexivity. done.
  - rewrite call_llm_backend by done. cbv zeta.
    destruct (llm env _ _) as [r|e]; [destruct use_cache|]; simpl.
    1: destruct (insert_raises _).
    all: erewrite logged_app, performed_app
      by (simpl; rewrite <- ?app_assoc; reflexivity).
    all: by rewrite <- ?app_assoc.
Qed.

(** X1: the log is append-only, and whatever happens next every invocation
    first logs the prompt and then its token estimate, a quarter of the
    prompt's length rounded down. *)
Theorem log_starts_with_prompt_and_estimate
    (env : Env) (w : World) (prompt : string) (use_cache : bool) :
  let '(res, w') := call_llm env prompt use_cache w in
  ∃ rest, log w' = log w ++ InfoPrompt prompt
                        :: InfoTokenCount (String.length prompt / 4) :: rest.
Proof.
  destruct (hit_or_miss w prompt use_cache) as [[-> [r Hhit]]|[[-> Hc]|Hmiss]].
  - rewrite (call_llm_hit env w prompt r Hhit). by eexists.
  - rewrite (call_llm_check_raises env w prompt Hc). by eexists.
  - rewrite call_llm_backend by done. cbv zeta.
    destruct (llm env _ _) as [r|e]; [destruct use_cache|]; simpl.
    1: destruct (insert_raises _).
    all: eexists; rewrite <- ?app_assoc; simpl; reflexivity.
Qed.

(** X2: an invocation that returns logs exactly one response record, holding
    the text it returns, whether the text came from the cache or from the
    backend. An invocation that raises logs none, with one exception: when
    the backend has answered and the insertion into a re-read file that
    holds no JSON object raises [TypeError], the answer is in the log
    already. *)
Theorem one_response_record_per_result
    (env : Env) (w : World) (prompt : string) (use_cache : bool) :
  let '(res, w') := call_llm env prompt use_cache w in
  let reply := llm env (length (requests w)) (request_for env prompt) in
  let reread := meanwhile env (length (requests w)) (cache_file w) in
  let responses := filter is_response (logged w w') in
  match res with
  | Ok text => responses = [InfoResponse text]
  | Raised e =>
      responses = [] ∨
      (∃ r, reply = Respond r ∧ responses = [InfoResponse r] ∧
            e = TypeError ∧ use_cache = true ∧ insert_raises reread = true)
  end ∧
  (use_cache = false ∨ insert_raises reread = false →
   ∀ e, res = Raised e → responses = []).
Proof.
  destruct (hit_or_miss w prompt use_cache) as [[-> [r Hhit]]|[[-> Hc]|Hmiss]].
  - rewrite (call_llm_hit env w prompt r Hhit). cbv zeta.
    erewrite logged_app by reflexivity.
    split; [|done]. by destruct (cache_file w).
  - rewrite (call_llm_check_raises env w prompt Hc). cbv zeta.
    erewrite logged_app by reflexivity. split; [by left|done].
  - rewrite call_llm_backend by done. cbv zeta.
    generalize (meanwhile env (length (requests w)) (cache_file w)).
    intros reread.
    clear Hmiss. destruct use_cache, (llm env _ _) as [r|e]; simpl.
    1: destruct (insert_raises reread) eqn:Hins.
    all: erewrite logged_app by (simpl; rewrite <- ?app_assoc; reflexivity).
    all: destruct (cache_file w), reread; try discriminate Hins;
      try destruct (disk env _); simpl.
    all: split; [|intros [?|?] e' ?; done].
    all: try reflexivity; try (by left).
    all: right; exists r; by repeat split.
Qed.

(** The exception is real: the cache file holds [[]], the backend answers,
    the answer is logged, and the insertion raises. *)
Example response_logged_before_type_error :
  let env := quiet_env (λ _, Respond "R1") (λ _, Saved) in
  let '(res, w') := call_llm env "p" true (fresh (OtherJson (JArray []))) in
  res = Raised TypeError ∧
  log w' = [InfoPrompt "p"; InfoTokenCount 0; InfoResponse "R1"] ∧
  trace w' = [EvExists; EvRead; EvRequest (request_for env "p"); EvExists; EvRead] ∧
  cache_file w' = OtherJson (JArray []).
Proof. vm_compute. done. Qed.

(** ** The cache *)

(** X3: a prompt found in the cache costs one existence check and one read
    of the cache file and nothing else: the stored text is returned and
    logged as the response, no backend request is made, nothing is written,
    no error is logged and the file is left as it is. *)
Theorem cache_hit (env : Env) (w : World) (prompt r : string) :
  loaded (cache_file w) !! prompt = Some r →
  let '(res, w') := call_llm env prompt true w in
  res = Ok r ∧
  performed w w' = [EvExists; EvRead] ∧
  logged w w' = [InfoPrompt prompt; InfoTokenCount (estimate_tokens prompt);
                 InfoResponse r] ∧
  cache_file w' = cache_file w.
Proof.
  intros Hhit. rewrite (call_llm_hit env w prompt r Hhit).
  erewrite logged_app, performed_app by reflexivity.
  destruct (cache_file w); try done.
  all: by rewrite lookup_empty in Hhit.
Qed.

Lemma cache_hit_witness :
  let env := quiet_env (λ _, Respond "live") (λ _, Saved) in
  let w := fresh (Stored {[ "p" := "stored" ]}) in
  let '(res, w') := call_llm env "p" true w in
  res = Ok "stored" ∧ performed w w' = [EvExists; EvRead].
Proof.
  pose proof (cache_hit (quiet_env (λ _, Respond "live") (λ _, Saved))
                (fresh (Stored {[ "p" := "stored" ]})) "p" "stored" eq_refl) as H.
  cbv zeta in *.
  destruct (call_llm _ _ _ _) as [res w'].
  destruct H as (Hres & Hp & _). by split.
Defined.

(** X4: a successful save after a miss adds the new entry and keeps every
    other entry of the file as it was read back after the request: no key
    is dropped and no other value is changed. *)
Theorem miss_keeps_other_entries (env : Env) (w : World) (prompt r : string) :
  loaded (cache_file w) !! prompt = None →
  check_raises (cache_file w) prompt = false →
  llm env (length (requests w)) (request_for env prompt) = Respond r →
  insert_raises (meanwhile env (length (requests w)) (cache_file w)) = false →
  disk env (length (writes w)) = Saved →
  let '(res, w') := call_llm env prompt true w in
  let reread := loaded (meanwhile env (length (requests w)) (cache_file w)) in
  let saved := loaded (cache_file w') in
  saved !! prompt = Some r ∧
  (∀ q, q ≠ prompt → saved !! q = reread !! q) ∧
  dom reread ⊆ dom saved ∧
  load_fails (cache_file w') = false.
Proof.
  intros Hmiss Hcheck Hllm Hins Hdisk.
  rewrite call_llm_miss by (by right). cbv zeta. rewrite Hllm, Hdisk. simpl.
  split; [apply lookup_insert_eq|]. split.
  - intros q Hq. by apply lookup_insert_ne.
  - split; [|done]. rewrite dom_insert_L. apply union_subseteq_r.
Qed.

Lemma miss_keeps_other_entries_witness :
  let env := quiet_env (λ _, Respond "R1") (λ _, Saved) in
  let '(res, w') := call_llm env "p" true (fresh (Stored {[ "q" := "R0" ]})) in
  loaded (cache_file w') !! "p" = Some "R1" ∧
  loaded (cache_file w') !! "q" = Some "R0".
Proof.
  pose proof (miss_keeps_other_entries (quiet_env (λ _, Respond "R1") (λ _, Saved))
                (fresh (Stored {[ "q" := "R0" ]})) "p" "R1"
                eq_refl eq_refl eq_refl eq_refl eq_refl) as H.
  cbv zeta in *.
  destruct (call_llm _ _ _ _) as [res w'].
  destruct H as (Hp & Hq & _).
  split; [exact Hp|]. by rewrite Hq.
Defined.

(** X5: when the cache file does not load at the moment of the update, a
    successful save replaces it by a cache of one entry: whatever the file
    held is gone, and the file loads again. *)
Theorem unloadable_cache_is_replaced (env : Env) (w : World) (prompt r : string) :
  loaded (cache_file w) !! prompt = None →
  check_raises (cache_file w) prompt = false →
  llm env (length (requests w)) (request_for env prompt) = Respond r →
  disk env (length (writes w)) = Saved →
  load_fails (meanwhile env (length (requests w)) (cache_file w)) = true →
  let '(res, w') := call_llm env prompt true w in
  res = Ok r ∧ cache_file w' = Stored {[ prompt := r ]}.
Proof.
  intros Hmiss Hcheck Hllm Hdisk Hfails.
  assert (Hins : insert_raises (meanwhile env (length (requests w)) (cache_file w)) = false)
    by (by destruct (meanwhile env _ _)).
  rewrite call_llm_miss by (by right). cbv zeta. rewrite Hllm, Hdisk. simpl.
  split; [done|].
  destruct (meanwhile env _ _); try done.
Qed.

Lemma unloadable_cache_is_replaced_witness :
  let env := quiet_env (λ _, Respond "R1") (λ _, Saved) in
  let '(res, w') := call_llm env "p" true (fresh (Unreadable (Exn "JSONDecodeError"))) in
  res = Ok "R1" ∧ cache_file w' = Stored {[ "p" := "R1" ]}.
Proof.
  exact (unloadable_cache_is_replaced (quiet_env (λ _, Respond "R1") (λ _, Saved))
           (fresh (Unreadable (Exn "JSONDecodeError"))) "p" "R1"
           eq_refl eq_refl eq_refl eq_refl eq_refl).
Defined.

(** ** Invocations that store nothing *)

(** What an invocation that reaches the backend leaves behind when it does
    not update the cache: the request is on record, and the cache file is as
    the other writers left it. *)
Lemma call_llm_without_update env w prompt use_cache :
  use_cache = false ∨
    (loaded (cache_file w) !! prompt = None ∧
     check_raises (cache_file w) prompt = false) →
  use_cache = false ∨
    (∃ e, llm env (length (requests w)) (request_for env prompt) = Fail e) →
  let '(res, w') := call_llm env prompt use_cache w in
  res = outcome (llm env (length (requests w)) (request_for env prompt)) ∧
  requests w' = requests w ++ [EvRequest (request_for env prompt)] ∧
  trace w' = trace w ++ performed w w' ∧
  cache_file w' = meanwhile env (length (requests w)) (cache_file w).
Proof.
  intros Hmiss Hno.
  pose proof (call_llm_extends env w prompt use_cache) as Hext.
  pose proof (miss_single_request env w prompt use_cache Hmiss) as Hone.
  pose proof (call_llm_backend env w prompt use_cache Hmiss) as Hrun.
  destruct (call_llm env prompt use_cache w) as [res w'].
  destruct Hext as [_ Hext], Hone as (Hone & _ & _ & _ & _).
  cbv zeta in Hrun.
  assert (Hres : res = outcome (llm env (length (requests w)) (request_for env prompt))
                 ∧ cache_file w' = meanwhile env (length (requests w)) (cache_file w)).
  { destruct (llm env _ _) as [r|e] eqn:Hllm.
    - destruct Hno as [->|[e [=]]]. by injection Hrun as -> ->.
    - by injection Hrun as -> ->. }
  destruct Hres as [Hres Hfile].
  split; [done|]. split; [|by split].
  unfold requests. by rewrite Hext, filter_app, Hone.
Qed.

Lemma backend_calls_app w w' w'' :
  trace w' = trace w ++ performed w w' →
  trace w'' = trace w' ++ performed w' w'' →
  backend_calls w w'' = backend_calls w w' + backend_calls w' w''.
Proof.
  intros H1 H2. unfold backend_calls.
  rewrite (performed_app w w'' (performed w w' ++ performed w' w''))
    by (by rewrite H2, H1 at 1; rewrite <- app_assoc).
  by rewrite filter_app, length_app.
Qed.

(** X6: an invocation with caching disabled stores nothing: when the prompt
    was not cached before and no other process writes the file meanwhile, a
    following cache-enabled invocation with the same prompt misses and asks
    the backend again, so the two invocations cost two backend calls; the
    second returns what the backend answers then, provided its update of
    the cache finds a file that holds an object or none that loads. *)
Theorem bypass_does_not_populate (env : Env) (w : World) (prompt : string) :
  let n := length (requests w) in
  loaded (cache_file w) !! prompt = None →
  check_raises (cache_file w) prompt = false →
  meanwhile env n (cache_file w) = cache_file w →
  let '(res1, w1) := call_llm env prompt false w in
  let '(res2, w2) := call_llm env prompt true w1 in
  cache_file w1 = cache_file w ∧
  backend_calls w w2 = 2 ∧
  (insert_raises (meanwhile env (S n) (cache_file w)) = false →
   res2 = outcome (llm env (S n) (request_for env prompt))).
Proof.
  intros n Hmiss Hcheck Hquiet.
  pose proof (call_llm_without_update env w prompt false (or_introl eq_refl)
                (or_introl eq_refl)) as H1.
  pose proof (miss_single_request env w prompt false (or_introl eq_refl)) as C1.
  destruct (call_llm env prompt false w) as [res1 w1].
  destruct H1 as (_ & Hreq & Hext1 & Hfile). fold n in Hfile. rewrite Hquiet in Hfile.
  destruct C1 as (_ & _ & Hone & _).
  assert (Hmiss1 : true = false ∨
            (loaded (cache_file w1) !! prompt = None ∧
             check_raises (cache_file w1) prompt = false))
    by (right; by rewrite Hfile).
  pose proof (miss_single_request env w1 prompt true Hmiss1) as C2.
  pose proof (call_llm_extends env w1 prompt true) as Hext2.
  destruct (call_llm env prompt true w1) as [res2 w2].
  destruct C2 as (_ & _ & Htwo & Hres & _), Hext2 as [_ Hext2].
  assert (Hlen : length (requests w1) = S n)
    by (rewrite Hreq, length_app; simpl; fold n; lia).
  rewrite Hlen, Hfile in Hres.
  split; [done|]. split.
  - rewrite (backend_calls_app w w1 w2) by done. by rewrite Hone, Htwo.
  - intros Hins. apply Hres. by right.
Qed.

Lemma bypass_does_not_populate_witness :
  let env := quiet_env (λ n, match n with 0 => Respond "R1" | _ => Respond "R2" end)
                       (λ _, Saved) in
  let w := fresh (Stored ∅) in
  let '(res1, w1) := call_llm env "p" false w in
  let '(res2, w2) := call_llm env "p" true w1 in
  backend_calls w w2 = 2 ∧ res2 = Ok "R2".
Proof.
  pose proof (bypass_does_not_populate
    (quiet_env (λ n, match n with 0 => Respond "R1" | _ => Respond "R2" end) (λ _, Saved))
    (fresh (Stored ∅)) "p" eq_refl eq_refl eq_refl) as H.
  cbv zeta in *.
  destruct (call_llm _ _ _ _) as [res1 w1].
  destruct (call_llm _ _ _ w1) as [res2 w2].
  destruct H as (_ & Htwo & Hres). split; [exact Htwo | exact (Hres eq_refl)].
Defined.

(** X7: an invocation whose backend call fails returns before the cache
    update: no response is logged and nothing is written, so, when no other
    process writes the file meanwhile, the same prompt asked again reaches
    the backend again; it gets the answer of that second request, provided
    its update of the cache finds a file that holds an object or none that
    loads. *)
Theorem failure_is_not_cached (env : Env) (w : World) (prompt : string) (e : exn) :
  let n := length (requests w) in
  loaded (cache_file w) !! prompt = None →
  check_raises (cache_file w) prompt = false →
  llm env n (request_for env prompt) = Fail e →
  meanwhile env n (cache_file w) = cache_file w →
  let '(res1, w1) := call_llm env prompt true w in
  let '(res2, w2) := call_llm env prompt true w1 in
  res1 = Raised e ∧
  filter is_write (performed w w1) = [] ∧
  cache_file w1 = cache_file w ∧
  backend_calls w w2 = 2 ∧
  (insert_raises (meanwhile env (S n) (cache_file w)) = false →
   res2 = outcome (llm env (S n) (request_for env prompt))).
Proof.
  intros n Hmiss Hcheck Hfail Hquiet.
  assert (Hmiss0 : true = false ∨
            (loaded (cache_file w) !! prompt = None ∧
             check_raises (cache_file w) prompt = false)) by (by right).
  pose proof (call_llm_without_update env w prompt true Hmiss0
                (or_intror (ex_intro _ e Hfail))) as H1.
  pose proof (miss_single_request env w prompt true Hmiss0) as C1.
  destruct (call_llm env prompt true w) as [res1 w1].
  destruct H1 as (Hres1 & Hreq & Hext1 & Hfile).
  fold n in Hfile, Hres1. rewrite Hquiet in Hfile. rewrite Hfail in Hres1.
  destruct C1 as (_ & _ & Hone & _ & Hnowrite).
  destruct (Hnowrite e Hfail) as [_ Hw].
  assert (Hmiss1 : true = false ∨
            (loaded (cache_file w1) !! prompt = None ∧
             check_raises (cache_file w1) prompt = false))
    by (right; by rewrite Hfile).
  pose proof (miss_single_request env w1 prompt true Hmiss1) as C2.
  pose proof (call_llm_extends env w1 prompt true) as Hext2.
  destruct (call_llm env prompt true w1) as [res2 w2].
  destruct C2 as (_ & _ & Htwo & Hres & _), Hext2 as [_ Hext2].
  assert (Hlen : length (requests w1) = S n)
    by (rewrite Hreq, length_app; simpl; fold n; lia).
  rewrite Hlen, Hfile in Hres.
  repeat split; try done.
  - rewrite (backend_calls_app w w1 w2) by done. by rewrite Hone, Htwo.
  - intros Hins. apply Hres. by right.
Qed.

Lemma failure_is_not_cached_witness :
  let env := quiet_env (λ n, match n with 0 => Fail (Exn "APITimeoutError")
                                        | _ => Respond "R2" end)
                       (λ _, Saved) in
  let w := fresh Missing in
  let '(res1, w1) := call_llm env "p" true w in
  let '(res2, w2) := call_llm env "p" true w1 in
  res1 = Raised (Exn "APITimeoutError") ∧ res2 = Ok "R2" ∧ backend_calls w w2 = 2.
Proof.
  pose proof (failure_is_not_cached
    (quiet_env (λ n, match n with 0 => Fail (Exn "APITimeoutError") | _ => Respond "R2" end)
               (λ _, Saved))
    (fresh Missing) "p" (Exn "APITimeoutError") eq_refl eq_refl eq_refl eq_refl) as H.
  cbv zeta in *.
  destruct (call_llm _ _ _ _) as [res1 w1].
  destruct (call_llm _ _ _ w1) as [res2 w2].
  destruct H as (H1 & _ & _ & Htwo & H2).
  split; [exact H1|]. split; [exact (H2 eq_refl) | exact Htwo].
Defined.

(** On a cache file that holds [[]] both invocations reach the backend, and
    the second one, whose backend call is answered, ends with the
    [TypeError] of the insertion. *)
Example retry_on_non_object_cache :
  let env := quiet_env (λ n, match n with 0 => Fail (Exn "APITimeoutError")
                                        | _ => Respond "R2" end)
                       (λ _, Saved) in
  let w := fresh (OtherJson (JArray [])) in
  let '(res1, w1) := call_llm env "p" true w in
  let '(res2, w2) := call_llm env "p" true w1 in
  res1 = Raised (Exn "APITimeoutError") ∧ res2 = Raised TypeError ∧
  backend_calls w w2 = 2.
Proof. vm_compute. done. Qed.

(** X8: with caching disabled the log of an invocation is the prompt, the
    token estimate and, when the backend answers, the response: no error
    record is ever logged, since the cache file is not touched. *)
Theorem bypass_log (env : Env) (w : World) (prompt : string) :
  let '(res, w') := call_llm env prompt false w in
  logged w w' =
    [InfoPrompt prompt; InfoTokenCount (estimate_tokens prompt)] ++
    match res with Ok text => [InfoResponse text] | Raised _ => [] end ∧
  filter is_error (logged w w') = [].
Proof.
  rewrite call_llm_miss by (by left). cbv zeta.
  destruct (llm env _ _) as [r|e]; simpl.
  all: erewrite logged_app by (simpl; rewrite <- ?app_assoc; reflexivity).
  all: done.
Qed.

(** ** The same prompt again and again *)

(** X9: once a prompt is in the cache, any number of cache-enabled
    invocations in a row return the stored text every time, without a
    single backend request or write, and leave the cache file as it is. *)
Theorem repeated_hits (env : Env) (prompt r : string) (n : nat) (w : World) :
  loaded (cache_file w) !! prompt = Some r →
  let '(res, w') := call_llm_times env prompt true n w in
  res = Ok (replicate n r) ∧
  requests w' = requests w ∧ writes w' = writes w ∧
  cache_file w' = cache_file w.
Proof.
  revert w. induction n as [|n IH]; intros w Hhit; simpl; [done|].
  unfold io_bind at 1. rewrite (call_llm_hit env w prompt r Hhit).
  cbv beta iota. unfold io_bind.
  match goal with |- context [call_llm_times env prompt true n ?x] => set (w1 := x) end.
  specialize (IH w1 Hhit).
  destruct (call_llm_times env prompt true n w1) as [res w'].
  destruct IH as (-> & Hreq & Hwr & Hfile). unfold io_ret.
  split; [done|]. rewrite Hreq, Hwr, Hfile.
  unfold requests, writes, w1; simpl.
  by rewrite !filter_app, load_events_no_request, load_events_no_write, !app_nil_r.
Qed.

Lemma repeated_hits_witness :
  let env := quiet_env (λ _, Respond "live") (λ _, Saved) in
  let w := fresh (Stored {[ "p" := "stored" ]}) in
  let '(res, w') := call_llm_times env "p" true 3 w in
  res = Ok ["stored"; "stored"; "stored"] ∧ requests w' = [].
Proof.
  pose proof (repeated_hits (quiet_env (λ _, Respond "live") (λ _, Saved))
                "p" "stored" 3 (fresh (Stored {[ "p" := "stored" ]})) eq_refl) as H.
  cbv zeta in *.
  destruct (call_llm_times _ _ _ _ _) as [res w'].
  destruct H as (Hres & Hreq & _). by split.
Defined.

(** ** The token estimate of a concatenation *)

Lemma string_length_app (a b : string) :
  String.length (a +:+ b) = String.length a + String.length b.
Proof. induction a as [|c a IH]; simpl; [done|]. by rewrite IH. Qed.

(** X10: the estimate of two texts put together is the sum of their
    estimates or one more: estimating the parts of a prompt separately
    never overshoots the estimate of the whole, and falls short of it by at
    most one token per joint. *)
Theorem estimate_tokens_app (a b : string) :
  estimate_tokens a + estimate_tokens b ≤ estimate_tokens (a +:+ b)
    ≤ estimate_tokens a + estimate_tokens b + 1.
Proof.
  unfold estimate_tokens. rewrite string_length_app.
  pose proof (Nat.div_mod_eq (String.length a) 4).
  pose proof (Nat.div_mod_eq (String.length b) 4).
  pose proof (Nat.div_mod_eq (String.length a + String.length b) 4).
  pose proof (Nat.mod_upper_bound (String.length a) 4).
  pose proof (Nat.mod_upper_bound (String.length b) 4).
  pose proof (Nat.mod_upper_bound (String.length a + String.length b) 4).
  lia.
Qed.

(** Both bounds are reached. *)
Example estimate_tokens_app_bounds :
  estimate_tokens ("abcd" +:+ "efgh") = estimate_tokens "abcd" + estimate_tokens "efgh" ∧
  estimate_tokens ("abc" +:+ "d") = estimate_tokens "abc" + estimate_tokens "d" + 1.
Proof. done. Qed.

(** ** The self-test *)

(** X11: the self-test reaches the backend whatever the cache holds: it
    makes exactly one request, for the test prompt, without checking,
    reading or writing the cache file; it prints the response when the
    backend answers, and ends with the backend's exception, after the first
    line only, when it does not. *)
Theorem self_test_hits_the_backend (env : Env) (w : World) :
  let '(printed, (res, w')) := self_test env w in
  let reply := llm env (length (requests w)) (request_for env test_prompt) in
  performed w w' = [EvRequest (request_for env test_prompt)] ∧
  printed = PrintMakingCall ::
    match reply with Respond text => [PrintResponse text] | Fail _ => [] end ∧
  res = match reply with Respond _ => Ok tt | Fail e => Raised e end.
Proof.
  unfold self_test.
  pose proof (cache_bypass env w test_prompt) as H.
  destruct (call_llm env test_prompt false w) as [res w'].
  destruct H as (Hperf & _ & Hres & _).
  destruct (llm env _ _) as [text|e]; simpl in Hres; subst res; done.
Qed.

(** ** The log file *)

Lemma string_app_assoc (a b c : string) : (a +:+ b) +:+ c = a +:+ (b +:+ c).
Proof.
  induction a as [|x a IH]; [reflexivity|].
  exact (f_equal (String x) IH).
Qed.

Lemma digit_single n : ∃ c, digit n = String c EmptyString.
Proof. do 9 (destruct n as [|n]; [by eexists|]). by eexists. Qed.

Lemma digit_inj a b : a < 10 → b < 10 → digit a = digit b → a = b.
Proof.
  intros Ha Hb.
  do 10 (destruct a as [|a];
         [do 10 (destruct b as [|b]; [done || discriminate|]); lia|]).
  lia.
Qed.

(** Fixed-width decimal text can be read back: two numbers printed in [k]
    digits in front of two texts give the same text only when they agree
    modulo [10 ^ k] and the texts that follow are the same. *)
Lemma digits_inj k a b s t :
  digits k a +:+ s = digits k b +:+ t → a mod 10 ^ k = b mod 10 ^ k ∧ s = t.
Proof.
  revert a b s t. induction k as [|k IH]; intros a b s t H.
  - change (s = t) in H. by rewrite Nat.pow_0_r, !Nat.mod_1_r.
  - change (digits (S k) a) with (digits k (a / 10) +:+ digit (a mod 10)) in H.
    change (digits (S k) b) with (digits k (b / 10) +:+ digit (b mod 10)) in H.
    rewrite !string_app_assoc in H.
    apply IH in H as [Hhigh Hlow].
    destruct (digit_single (a mod 10)) as [x Hx].
    destruct (digit_single (b mod 10)) as [y Hy].
    rewrite Hx, Hy in Hlow.
    change (String x s = String y t) in Hlow. injection Hlow as -> ->.
    split; [|done].
    assert (Hd : a mod 10 = b mod 10).
    { apply digit_inj; [by apply Nat.mod_upper_bound..|congruence]. }
    rewrite Nat.pow_succ_r', !Nat.Div0.mod_mul_r. congruence.
Qed.

Lemma os_path_join_relative a b :
  starts_with_sep b = false →
  ∃ prefix, (∀ b', starts_with_sep b' = false → os_path_join a b' = prefix +:+ b').
Proof.
  intros _. unfold os_path_join.
  destruct (bool_decide (a = EmptyString) || ends_with_sep a).
  - exists a. by intros b' ->.
  - exists (a +:+ "/"). intros b' ->. by rewrite string_app_assoc.
Qed.

(** X12: there is one log file per calendar day: for dates with a four-digit
    year the files of two different days have different names, whatever
    [LOG_DIR] is. *)
Theorem log_file_per_day (env : Env) (d1 d2 : Date) :
  four_digit_date d1 → four_digit_date d2 →
  log_file env d1 = log_file env d2 → d1 = d2.
Proof.
  intros (Hy1 & Hm1 & Hd1) (Hy2 & Hm2 & Hd2) H.
  unfold log_file in H.
  destruct (os_path_join_relative (log_directory env)
              ("llm_calls_" +:+ strftime_Ymd d1 +:+ ".log") eq_refl) as [prefix Hjoin].
  rewrite !Hjoin in H by reflexivity.
  apply (inj (String.append prefix)) in H.
  apply (inj (String.append "llm_calls_")) in H.
  unfold strftime_Ymd in H. rewrite !string_app_assoc in H.
  apply digits_inj in H as [Hy H].
  apply digits_inj in H as [Hm H].
  apply digits_inj in H as [Hd _].
  assert (E4 : 10 ^ 4 = 10 * 1000) by reflexivity.
  rewrite E4 in Hy.
  rewrite !Nat.mod_small in Hy, Hm, Hd by (simpl; lia).
  destruct d1, d2; simpl in *; congruence.
Qed.

Lemma log_file_per_day_witness :
  let env := quiet_env (λ _, Respond "") (λ _, Saved) in
  log_file env {| year := 2026; month := 11; day := 3 |} = "logs/llm_calls_20261103.log" ∧
  log_file env {| year := 2026; month := 11; day := 3 |} ≠
  log_file env {| year := 2026; month := 11; day := 4 |}.
Proof.
  split; [reflexivity|].
  intros H.
  apply (log_file_per_day (quiet_env (λ _, Respond "") (λ _, Saved))) in H.
  - discriminate H.
  - unfold four_digit_date; simpl; lia.
  - unfold four_digit_date; simpl; lia.
Defined.

End GatewayExtra.

(** * Further properties of the configuration loader *)

Module MainExtra.
Import Main MainProps.

(** ** The parser, option by option *)

Lemma consume_app l1 l2 st :
  consume (l1 ++ l2) st =
    match consume l1 st with
    | inl exit => inl exit
    | inr st1 => consume l2 st1
    end.
Proof.
  revert st. induction l1 as [|a l1 IH]; intros st; simpl; [done|].
  destruct (take_action a st); [done|apply IH].
Qed.

(** What an occurrence stores in its own attribute does not depend on what
    was there. *)
Lemma store_own a ns ns0 :
  getattr (store a ns) (dest a) = getattr (store a ns0) (dest a).
Proof. by destruct a. Qed.

(** The last occurrence of an option decides its attribute. *)
Lemma parse_args_last pre a post args :
  parse_args (pre ++ a :: post) = inr args →
  omitted (dest a) post = true →
  getattr args (dest a) = getattr (store a defaults) (dest a).
Proof.
  intros H Hom. apply parse_args_inr in H as (st & Hc & -> & _).
  rewrite consume_app in Hc.
  destruct (consume pre _) as [exit|st1]; [done|]. simpl in Hc.
  destruct (take_action a st1) as [exit|st2] eqn:Ha; [done|].
  rewrite (consume_omitted _ _ _ _ Hc Hom).
  apply take_action_inr in Ha as (_ & _ & ->). simpl. apply store_own.
Qed.

(** The [store_true] flags are set exactly by their occurrences. *)
Lemma consume_flags argv st st' :
  consume argv st = inr st' →
  no_cache (namespace st') = no_cache (namespace st) || given d_no_cache argv ∧
  text_only_ (namespace st') = text_only_ (namespace st) || given d_text_only argv.
Proof.
  revert st. induction argv as [|a rest IH]; intros st H; simpl in H.
  - injection H as <-. unfold given; simpl. by rewrite !orb_false_r.
  - destruct (take_action a st) as [exit|st1] eqn:Ha; [done|].
    destruct (IH _ H) as [-> ->].
    apply take_action_inr in Ha as (_ & _ & ->).
    unfold given, omitted; simpl.
    destruct a; simpl; rewrite ?orb_true_r, ?orb_false_r; try done.
    all: by destruct (no_cache _), (text_only_ _), (forallb _ _).
Qed.

Lemma consume_patterns argv st st' :
  patterns_given (include (namespace st)) ∧ patterns_given (exclude (namespace st)) →
  consume argv st = inr st' →
  patterns_given (include (namespace st')) ∧ patterns_given (exclude (namespace st')).
Proof.
  revert st. induction argv as [|a rest IH]; intros st Hinv H; simpl in H.
  - by injection H as <-.
  - destruct (take_action a st) as [exit|st1] eqn:Ha; [done|].
    apply (IH st1); [|done].
    apply take_action_inr in Ha as (_ & _ & ->).
    destruct Hinv as [Hi He].
    destruct a; simpl; split; try done; right; by eexists _, _.
Qed.

(** ** Patterns *)

(** X13: patterns given with [-i] or [-e] replace the defaults in either
    mode: the set in the shared dictionary holds exactly the patterns of the
    last occurrence of the option, repetitions counting once. *)
Theorem explicit_patterns_win (environ : string → option string) (argv : list Arg)
    (shared : SharedDict) :
  (main environ argv).1 = RunFlow shared →
  (∀ pre p ps post, argv = pre ++ Include p ps :: post →
     omitted d_include post = true →
     ∀ x, x ∈ include_patterns shared ↔ x ∈ p :: ps) ∧
  (∀ pre p ps post, argv = pre ++ Exclude p ps :: post →
     omitted d_exclude post = true →
     ∀ x, x ∈ exclude_patterns shared ↔ x ∈ p :: ps).
Proof.
  intros Hrun. apply main_runflow in Hrun as (args & Hp & -> & _).
  split; intros pre p ps post -> Hom x.
  - pose proof (parse_args_last _ _ _ _ Hp Hom) as [= Hi].
    unfold build_shared; simpl. rewrite Hi. apply elem_of_list_to_set.
  - pose proof (parse_args_last _ _ _ _ Hp Hom) as [= He].
    unfold build_shared; simpl. rewrite He. apply elem_of_list_to_set.
Qed.

Lemma explicit_patterns_win_witness :
  ∃ shared,
    (main (λ _, None) [Dir "/repo"; TextOnly; Include "*.py" []; Include "*.rs" ["*.rs"]]).1
      = RunFlow shared ∧
    ("*.rs" ∈ include_patterns shared) ∧ ("*.py" ∉ include_patterns shared) ∧
    ("*.md" ∉ include_patterns shared).
Proof.
  eexists. split; [reflexivity|].
  destruct (explicit_patterns_win (λ _, None)
              [Dir "/repo"; TextOnly; Include "*.py" []; Include "*.rs" ["*.rs"]]
              _ eq_refl) as [H _].
  specialize (H [Dir "/repo"; TextOnly; Include "*.py" []] "*.rs" ["*.rs"] []
                eq_refl eq_refl).
  rewrite !H, !elem_of_cons, !elem_of_nil.
  split; [by left|]. split; intros [?|[?|[]]]; discriminate.
Defined.

(** X14: without [--text-only], [-i] and [-e] the shared dictionary holds
    the code defaults, with [*.py] and [*.go] among the include patterns and
    [*.txt] not, and tests and documentation directories excluded. *)
Theorem code_mode_patterns (environ : string → option string) (argv : list Arg)
    (shared : SharedDict) :
  omitted d_text_only argv = true →
  omitted d_include argv = true →
  omitted d_exclude argv = true →
  (main environ argv).1 = RunFlow shared →
  include_patterns shared = DEFAULT_INCLUDE_PATTERNS ∧
  exclude_patterns shared = DEFAULT_EXCLUDE_PATTERNS ∧
  ("*.py" ∈ include_patterns shared) ∧ ("*.go" ∈ include_patterns shared) ∧
  ("*.txt" ∉ include_patterns shared) ∧
  ("tests/*" ∈ exclude_patterns shared) ∧ ("docs/*" ∈ exclude_patterns shared).
Proof.
  intros Htext Hinc Hexc Hrun.
  apply main_runflow in Hrun as (args & Hp & -> & _).
  pose proof (parse_args_omitted _ _ _ Hp Hinc) as [= Hi].
  pose proof (parse_args_omitted _ _ _ Hp Hexc) as [= He].
  pose proof (parse_args_omitted _ _ _ Hp Htext) as [= Ht].
  unfold build_shared; simpl. rewrite Hi, He, Ht.
  repeat split; try done; by_computing.
Qed.

Lemma code_mode_patterns_witness :
  ∃ shared, (main (λ _, None) [Repo "https://github.com/o/r"]).1 = RunFlow shared ∧
            include_patterns shared = DEFAULT_INCLUDE_PATTERNS ∧
            exclude_patterns shared = DEFAULT_EXCLUDE_PATTERNS.
Proof.
  eexists. split; [reflexivity|].
  destruct (code_mode_patterns (λ _, None) [Repo "https://github.com/o/r"] _
              eq_refl eq_refl eq_refl eq_refl) as (Hi & He & _).
  split; [exact Hi | exact He].
Defined.

(** X15: the pattern sets handed to the flow are never empty: [-i] and [-e]
    take at least one pattern, and the four default sets have members. *)
Theorem patterns_never_empty (environ : string → option string) (argv : list Arg)
    (shared : SharedDict) :
  (main environ argv).1 = RunFlow shared →
  include_patterns shared ≠ ∅ ∧ exclude_patterns shared ≠ ∅.
Proof.
  intros Hrun. apply main_runflow in Hrun as (args & Hp & -> & _).
  apply parse_args_inr in Hp as (st & Hc & -> & _).
  assert (Hinit : patterns_given (include defaults) ∧ patterns_given (exclude defaults))
    by (split; by left).
  destruct (consume_patterns argv {| namespace := defaults; seen := [] |} st Hinit Hc)
    as [Hi He].
  assert (Hne : ∀ (p : string) ps, list_to_set (C := gset string) (p :: ps) ≠ ∅).
  { intros p ps H. apply (not_elem_of_empty (C := gset string) p).
    rewrite <- H. apply elem_of_list_to_set. by left. }
  unfold build_shared; simpl. split.
  - destruct Hi as [->|(p & ps & ->)]; [|apply Hne].
    destruct (text_only_ _); by_computing.
  - destruct He as [->|(p & ps & ->)]; [|apply Hne].
    destruct (text_only_ _); by_computing.
Qed.

Lemma patterns_never_empty_witness :
  ∃ shared, (main (λ _, None) [Dir "/repo"; Exclude "x" []]).1 = RunFlow shared ∧
            include_patterns shared ≠ ∅ ∧ exclude_patterns shared ≠ ∅.
Proof.
  eexists. split; [reflexivity|].
  exact (patterns_never_empty (λ _, None) [Dir "/repo"; Exclude "x" []] _ eq_refl).
Defined.

(** ** Flags and values *)

(** X16: the two flags follow the command line exactly: caching is enabled
    unless [--no-cache] occurs, and text-only mode is on exactly when
    [--text-only] occurs, wherever and however often. *)
Theorem flags_follow_command_line (environ : string → option string)
    (argv : list Arg) (shared : SharedDict) :
  (main environ argv).1 = RunFlow shared →
  use_cache shared = negb (given d_no_cache argv) ∧
  text_only shared = given d_text_only argv.
Proof.
  intros Hrun. apply main_runflow in Hrun as (args & Hp & -> & _).
  apply parse_args_inr in Hp as (st & Hc & -> & _).
  destruct (consume_flags _ _ _ Hc) as [Hn Ht].
  unfold build_shared; simpl. by rewrite Hn, Ht.
Qed.

Lemma flags_follow_command_line_witness :
  ∃ shared, (main (λ _, None) [NoCache; Dir "/repo"; NoCache]).1 = RunFlow shared ∧
            use_cache shared = false ∧ text_only shared = false.
Proof.
  eexists. split; [reflexivity|].
  exact (flags_follow_command_line (λ _, None) [NoCache; Dir "/repo"; NoCache] _ eq_refl).
Defined.

(** X17: when an option is repeated the last occurrence is the one that
    reaches the shared dictionary. *)
Theorem last_occurrence_wins (environ : string → option string)
    (pre post : list Arg) (a : Arg) (shared : SharedDict) :
  omitted (dest a) post = true →
  (main environ (pre ++ a :: post)).1 = RunFlow shared →
  match a with
  | Repo url => repo_url shared = Some url
  | Dir path => local_dir shared = Some path
  | Name s => project_name shared = Some s
  | Output s => output_dir shared = s
  | MaxSize n => max_file_size shared = n
  | Language s => language shared = s
  | MaxAbstractions n => max_abstraction_num shared = n
  | MaxTokens n => max_tokens shared = n
  | _ => True
  end.
Proof.
  intros Hom Hrun. apply main_runflow in Hrun as (args & Hp & -> & _).
  pose proof (parse_args_last _ _ _ _ Hp Hom) as H.
  destruct a; simpl in *; try done; by injection H.
Qed.

Lemma last_occurrence_wins_witness :
  ∃ shared,
    (main (λ _, None) [Repo "a"; Output "x"; Repo "b"; Output "y"]).1 = RunFlow shared ∧
    output_dir shared = "y" ∧ repo_url shared = Some "b".
Proof.
  eexists. split; [reflexivity|]. split.
  - exact (last_occurrence_wins (λ _, None) [Repo "a"; Output "x"; Repo "b"] []
             (Output "y") _ eq_refl eq_refl).
  - exact (last_occurrence_wins (λ _, None) [Repo "a"; Output "x"] [Output "y"]
             (Repo "b") _ eq_refl eq_refl).
Defined.

(** ** The access token with a repository *)

(** X18: with a non-empty repository URL, a non-empty [--token] is the
    token and the environment is not consulted; otherwise [GITHUB_TOKEN] is
    looked up once and its value, if any, is the token. The rate-limit
    warning is printed exactly when the token found is absent or empty. *)
Theorem token_precedence (environ : string → option string) (argv : list Arg)
    (args : Namespace) :
  parse_args argv = inr args →
  truthy (repo args) = true →
  let '(out, effects) := main environ argv in
  ∃ shared, out = RunFlow shared ∧
    github_token shared =
      (if truthy (token args) then token args else environ "GITHUB_TOKEN") ∧
    filter is_environ_get effects =
      (if truthy (token args) then [] else [EnvironGet "GITHUB_TOKEN"]) ∧
    filter is_token_warning effects =
      (if truthy (github_token shared) then [] else [PrintNoTokenWarning]).
Proof.
  intros Hp Hrepo. unfold main. rewrite Hp.
  unfold find_github_token. rewrite Hrepo.
  destruct (truthy (token args)) eqn:Ht; simpl; rewrite ?Ht; simpl.
  - eexists. split; [reflexivity|]. simpl. by rewrite Ht.
  - destruct (truthy (environ "GITHUB_TOKEN")) eqn:He; simpl.
    all: eexists; split; [reflexivity|]; simpl; by rewrite He.
Qed.

Lemma token_precedence_witness :
  let '(out, effects) :=
    main environ_with_token [Repo "https://github.com/o/r"; Token "from-argv"] in
  ∃ shared, out = RunFlow shared ∧ github_token shared = Some "from-argv" ∧
            filter is_environ_get effects = [].
Proof.
  pose proof (token_precedence environ_with_token
                [Repo "https://github.com/o/r"; Token "from-argv"] _
                eq_refl eq_refl) as H.
  destruct (main _ _) as [out effects].
  destruct H as (shared & Hout & Htok & Henv & _).
  exists shared. split; [exact Hout|]. split; [exact Htok | exact Henv].
Defined.

(** An empty [--token] counts as none: the environment decides. *)
Example empty_token_falls_back :
  ∃ shared effects,
    main environ_with_token [Repo "https://github.com/o/r"; Token ""]
      = (RunFlow shared, effects) ∧
    github_token shared = Some "from-env".
Proof. eexists _, _. split; reflexivity. Qed.

End MainExtra.
